(** * jiracsv: the issue model and issue collections of package [jira]

    A shallow embedding of [jira/issue.go] and the properties of its
    classification predicates, its error translation and its collection
    operations.

    Conventions of the embedding.
    - A Go function that may panic returns in the [go] monad: [Val] for a
      normal return, [Panic] for a run-time panic.
    - A pointer [*T] that the package only reads through is [ptr T]: [None]
      is [nil], [Some v] points to a [T] whose current value is [v].  Every
      read through a pointer goes through [deref], which panics on [nil].
    - A slice is a header (array, offset, length, capacity) over a heap of
      backing arrays; [make] and [append] act on that heap.
    - Go's [int] is a 64-bit two's complement integer, a [Z] that [int_wrap]
      brings back into range after an addition. *)

From Stdlib Require Import ZArith String List Bool Lia Permutation.
From stdpp Require Import base option list gmap.

Local Open Scope Z_scope.

(** ** Go run-time behaviour *)

Module Go.

Inductive panic : Type :=
| NilDereference     (* invalid memory address or nil pointer dereference *)
| IndexOutOfRange    (* a slice element outside its backing storage *)
| LenOutOfRange.     (* makeslice: len out of range *)

Inductive go (A : Type) : Type :=
| Val (a : A)
| Panic (p : panic).
Arguments Val {A} a.
Arguments Panic {A} p.

#[export] Instance go_ret : MRet go := fun A a => Val a.
#[export] Instance go_bind : MBind go := fun A B f m =>
  match m with
  | Val a => f a
  | Panic p => Panic p
  end.

Definition returns {A} (m : go A) : Prop := exists a, m = Val a.

(** [*T], for data that is only read. *)
Definition ptr (A : Type) : Type := option A.
Definition nil {A} : ptr A := None.

Definition is_nil {A} (p : ptr A) : bool :=
  match p with
  | None => true
  | Some _ => false
  end.

(** [*p], [p.f]: a read through [p]. *)
Definition deref {A} (p : ptr A) : go A :=
  match p with
  | Some v => Val v
  | None => Panic NilDereference
  end.

(** [int] arithmetic. *)
Definition int_min : Z := - 2 ^ 63.
Definition int_max : Z := 2 ^ 63 - 1.
Definition int_wrap (z : Z) : Z := (z + 2 ^ 63) mod 2 ^ 64 - 2 ^ 63.
Definition int_add (x y : Z) : Z := int_wrap (x + y).
Definition in_int (z : Z) : Prop := int_min <= z <= int_max.

(** [make] of a slice of pointers panics with len out of range when the
    length is negative or the slice would be larger than the largest
    allocation of the run time, [2 ^ 48] bytes on the 64-bit platforms, a
    pointer taking 8 bytes.  A smaller allocation that the machine cannot
    satisfy ends the program with a fatal error; that is not a panic and is
    not modelled, the heap of backing arrays being unbounded. *)
Definition max_make_len : Z := 2 ^ 45.

End Go.
Import Go.

(** ** The client library's records *)

(** Modelled from the spec: the declarations of [jira.Issue] and
    [jira.Response] belong to the client library [go-jira] and are not part
    of this package.  They are modelled from the uses in [issue.go] and from
    the spec's description of the raw issue record (status name, type name,
    resolution name, priority name, a components list) and of the transport
    response (a status code).  A field is a pointer exactly where the source
    compares it with [nil] or declares it as one ([Status], [Resolution],
    [Priority], [ret]); [Components] is a slice that may be [nil]; the other
    fields are values. *)
Module jira.

Record IssueType := { IssueType_Name : string }.
Record Status := { Status_Name : string }.
Record Resolution := { Resolution_Name : string }.
Record Priority := { Priority_Name : string }.
Record Component := { Component_Name : string }.

Record IssueFields := {
  Type_ : IssueType;
  Status_ : ptr Status;
  Resolution_ : ptr Resolution;
  Priority_ : ptr Priority;
  (** [None] is the [nil] slice. The loop over the components only reads
      them, so a non-[nil] slice is the list of its elements. *)
  Components : option (list Component)
}.

Record Issue := { Key : string; Fields : IssueFields }.

Record http_Response := { StatusCode : Z }.
Record Response := { Response_ : http_Response }.

End jira.

(** [net/http] *)
Module http.
Definition StatusUnauthorized : Z := 401.
Definition StatusForbidden : Z := 403.
End http.

(** ** Slices *)

(** A slice header: the backing array, the offset of the slice's first
    element in it, the length and the capacity. *)
Record slice := Slice {
  s_array : nat;
  s_off : nat;
  s_len : nat;
  s_cap : nat
}.

Module Slice.
Section Slices.

Local Open Scope nat_scope.

(** The element type and its zero value. *)
Context {A : Type}.
Variable zero : A.

(** How much capacity the run time gives to a slice of capacity [n] that
    has to grow; the run time's choice is not fixed by the language. *)
Variable grow : nat -> nat.

(** The backing arrays, by address. *)
Abbreviation heap := (gmap nat (list A)).

(** The header describes storage that is allocated in [h]; a slice of
    capacity 0, such as the [nil] slice, needs none. *)
Definition valid (h : heap) (s : slice) : Prop :=
  s_len s <= s_cap s /\
  s_off s + s_cap s <= length (default [] (h !! s_array s)).

(** The elements of [s], first to last. *)
Definition elems (h : heap) (s : slice) : list A :=
  take (s_len s) (drop (s_off s) (default [] (h !! s_array s))).

(** [make([]T, size)] for [0 <= size] *)
Definition make (size : nat) (h : heap) : slice * heap :=
  let a := fresh (dom h) in
  (Slice a 0 size size, <[a := replicate size zero]> h).

(** [s[idx]].  A header that does not describe allocated storage cannot
    be built in Go; a read through one is reported as out of range. *)
Definition index (h : heap) (s : slice) (idx : nat) : go A :=
  if idx <? s_len s then
    match h !! s_array s with
    | Some arr =>
        match arr !! (s_off s + idx) with
        | Some x => Val x
        | None => Panic IndexOutOfRange
        end
    | None => Panic IndexOutOfRange
    end
  else Panic IndexOutOfRange.

(** [append(s, x)]: in place when the capacity allows it, into a new and
    larger array otherwise. *)
Definition append (s : slice) (x : A) (h : heap) : go (slice * heap) :=
  if s_len s <? s_cap s then
    match h !! s_array s with
    | Some arr =>
        if s_off s + s_len s <? length arr then
          Val (Slice (s_array s) (s_off s) (S (s_len s)) (s_cap s),
               <[s_array s := <[s_off s + s_len s := x]> arr]> h)
        else Panic IndexOutOfRange
    | None => Panic IndexOutOfRange
    end
  else
    let newcap := Nat.max (S (s_len s)) (grow (s_cap s)) in
    let a := fresh (dom h) in
    Val (Slice a 0 (S (s_len s)) newcap,
         <[a := elems h s ++ x :: replicate (newcap - S (s_len s)) zero]> h).

End Slices.
End Slice.

(** ** The package's types *)

(** [type IssueApprovals struct] *)
Record IssueApprovals := {
  Development : bool;
  Product : bool;
  Quality : bool;
  Experience : bool;
  Documentation : bool;
  Support : bool
}.

(** [type IssueCollection []*Issue] *)
Definition IssueCollection : Type := slice.

(** [type Issue struct]: the embedded [jira.Issue] and the derived fields.
    [Comments] is a slice of [*Comment]; no operation here reads it. *)
Record Issue := {
  Issue_ : jira.Issue;
  Link : string;
  ParentLink : string;
  LinkedIssues : IssueCollection;
  StoryPoints : Z;
  Approvals : IssueApprovals;
  QAContact : string;
  Acceptance : string;
  Owner : string;
  Impediment : bool;
  Comments : slice
}.

(** The promoted field [i.Fields]. *)
Definition Fields (i : Issue) : jira.IssueFields := jira.Fields (Issue_ i).

(** [errors.New] values: the package's sentinel, or an error of the client.
    The interface type [error] is [nil] or such a value. *)
Inductive error_value : Type :=
| ErrorAuthentication
| ClientError (msg : string).

Definition error : Type := option error_value.

(** ** Vocabularies *)

Definition IssueType : Type := string.
Definition IssueTypeInitiative : IssueType := "Initiative"%string.
Definition IssueTypeEpic : IssueType := "Epic"%string.
Definition IssueTypeStory : IssueType := "Story"%string.
Definition IssueTypeTask : IssueType := "Task"%string.

Definition IssueStatus : Type := string.
Definition IssueStatusDone : IssueStatus := "Done"%string.
Definition IssueStatusObsolete : IssueStatus := "Obsolete"%string.
Definition IssueStatusInProgress : IssueStatus := "In Progress"%string.
Definition IssueStatusFeatureComplete : IssueStatus := "Feature Complete"%string.
Definition IssueStatusCodeReview : IssueStatus := "Code Review"%string.
Definition IssueStatusQEReview : IssueStatus := "QE Review"%string.

(** The statuses of an issue that is being worked on. *)
Definition active_names : list IssueStatus :=
  [IssueStatusInProgress; IssueStatusFeatureComplete;
   IssueStatusCodeReview; IssueStatusQEReview].

Definition IssueResolution : Type := string.
Definition IssueResolutionDone : IssueResolution := "Done"%string.

Definition IssuePriority : Type := string.
Definition IssuePriorityUnprioritized : IssuePriority := "Unprioritized"%string.

(** ** Error translation *)

(** [func jiraReturnError(ret *jira.Response, err error) error] *)
Definition jiraReturnError (ret : ptr jira.Response) (err : error) : go error :=
  match err with
  | None => Val None
  | Some e =>
      r ← deref ret;
      let code := jira.StatusCode (jira.Response_ r) in
      if (code =? http.StatusForbidden) || (code =? http.StatusUnauthorized)
      then Val (Some ErrorAuthentication)
      else Val (Some e)
  end.

(** ** Classification of one issue *)

(** [func (a *IssueApprovals) Approved() bool] *)
Definition Approved (a : ptr IssueApprovals) : go bool :=
  a ← deref a;
  Val (eqb (Development a) true && eqb (Product a) true
       && eqb (Quality a) true && eqb (Experience a) true
       && eqb (Documentation a) true).

(** [func (i *Issue) IsActive() bool] *)
Definition IsActive (i : ptr Issue) : go bool :=
  i ← deref i;
  status ← deref (jira.Status_ (Fields i));
  let s : IssueStatus := jira.Status_Name status in
  if String.eqb s IssueStatusInProgress then Val true
  else if String.eqb s IssueStatusFeatureComplete then Val true
  else if String.eqb s IssueStatusCodeReview then Val true
  else if String.eqb s IssueStatusQEReview then Val true
  else Val false.

(** [func (i *Issue) IsType(tp IssueType) bool] *)
Definition IsType (i : ptr Issue) (tp : IssueType) : go bool :=
  i ← deref i;
  if String.eqb (jira.IssueType_Name (jira.Type_ (Fields i))) tp
  then Val true
  else Val false.

(** [func (i *Issue) InStatus(status IssueStatus) bool] *)
Definition InStatus (i : ptr Issue) (status : IssueStatus) : go bool :=
  i ← deref i;
  if negb (is_nil (jira.Status_ (Fields i)))
  then st ← deref (jira.Status_ (Fields i));
       Val (String.eqb (jira.Status_Name st) status)
  else Val false.

(** [func (i *Issue) IsResolved() bool] *)
Definition IsResolved (i : ptr Issue) : go bool :=
  i ← deref i;
  cond ← (if negb (is_nil (jira.Resolution_ (Fields i)))
          then r ← deref (jira.Resolution_ (Fields i));
               Val (String.eqb (jira.Resolution_Name r) IssueResolutionDone)
          else Val false);
  if cond : bool then Val true else Val false.

(** [func (i *Issue) IsPrioritized() bool] *)
Definition IsPrioritized (i : ptr Issue) : go bool :=
  i ← deref i;
  if negb (is_nil (jira.Priority_ (Fields i)))
  then p ← deref (jira.Priority_ (Fields i));
       let n : IssuePriority := jira.Priority_Name p in
       if String.eqb n IssuePriorityUnprioritized then Val false
       else if String.eqb n ""%string then Val false
       else Val true
  else Val true.

Section StoryPointsSentinel.

(** [NoStoryPoints] is declared in another file of the package; the
    operations are modelled for an arbitrary value of it. *)
Variable NoStoryPoints : Z.

(** [func (i *Issue) HasStoryPoints() bool] *)
Definition HasStoryPoints (i : ptr Issue) : go bool :=
  i ← deref i;
  if StoryPoints i >? NoStoryPoints then Val true else Val false.

End StoryPointsSentinel.

(** The loop of [HasComponent]: [for _, c := range ... { if c.Name == component ... }] *)
Fixpoint HasComponent_range (cs : list jira.Component) (component : string) : bool :=
  match cs with
  | [] => false
  | c :: cs' =>
      if String.eqb (jira.Component_Name c) component then true
      else HasComponent_range cs' component
  end.

(** [func (i *Issue) HasComponent(component string) bool] *)
Definition HasComponent (i : ptr Issue) (component : string) : go bool :=
  i ← deref i;
  match jira.Components (Fields i) with
  | None => Val false
  | Some cs => Val (HasComponent_range cs component)
  end.

(** ** Collections of issues *)

Abbreviation heap := (gmap nat (list (ptr Issue))).

(** [func NewIssueCollection(size int) IssueCollection] *)
Definition NewIssueCollection (size : Z) (h : heap) : go (IssueCollection * heap) :=
  if (size <? 0) || (max_make_len <? size) then Panic LenOutOfRange
  else Val (Slice.make nil (Z.to_nat size) h).

Module Collection.
Section Collection.

Variable grow : nat -> nat.
Variable NoStoryPoints : Z.

(** The loop of [FilterByFunction], [n] elements from index [idx] on:
    [for _, i := range c { if fn(i) { r = append(r, i) } }] *)
Fixpoint FilterByFunction_range (fn : ptr Issue -> bool) (c : IssueCollection)
    (idx n : nat) (r : IssueCollection) (h : heap) : go (IssueCollection * heap) :=
  match n with
  | O => Val (r, h)
  | S n' =>
      i ← Slice.index h c idx;
      rh ← (if fn i then Slice.append nil grow r i h else Val (r, h));
      FilterByFunction_range fn c (S idx) n' rh.1 rh.2
  end.

(** [func (c IssueCollection) FilterByFunction(fn func( *Issue) bool) IssueCollection] *)
Definition FilterByFunction (c : IssueCollection) (fn : ptr Issue -> bool)
    (h : heap) : go (IssueCollection * heap) :=
  rh ← NewIssueCollection 0 h;
  FilterByFunction_range fn c O (s_len c) rh.1 rh.2.

(** [func (c IssueCollection) Len() int] *)
Definition Len (c : IssueCollection) : Z := Z.of_nat (s_len c).

(** The loop of [StoryPoints]:
    [for _, i := range c { if i.HasStoryPoints() { points += i.StoryPoints } }] *)
Fixpoint StoryPoints_range (c : IssueCollection) (h : heap)
    (idx n : nat) (points : Z) : go Z :=
  match n with
  | O => Val points
  | S n' =>
      i ← Slice.index h c idx;
      has ← HasStoryPoints NoStoryPoints i;
      points ← (if has : bool
                then v ← deref i; Val (int_add points (StoryPoints v))
                else Val points);
      StoryPoints_range c h (S idx) n' points
  end.

(** [func (c IssueCollection) StoryPoints() int] *)
Definition StoryPoints (c : IssueCollection) (h : heap) : go Z :=
  StoryPoints_range c h O (s_len c) 0.

End Collection.
End Collection.

(** ** Predicates that can panic *)

(** The predicate of [FilterByFunction] is a Go function, and a Go function
    can panic, as every method of [*Issue] does on a [nil] receiver.  This
    is [FilterByFunction] for such a predicate: a panic of [fn] ends the
    call.  [Collection.FilterByFunction] is the case of a predicate that
    always returns. *)
Module Panicking.
Section Panicking.

Variable grow : nat -> nat.

(** [for _, i := range c { if fn(i) { r = append(r, i) } }] *)
Fixpoint FilterByFunction_range (fn : ptr Issue -> go bool) (c : IssueCollection)
    (idx n : nat) (r : IssueCollection) (h : heap) : go (IssueCollection * heap) :=
  match n with
  | O => Val (r, h)
  | S n' =>
      i ← Slice.index h c idx;
      b ← fn i;
      rh ← (if b : bool then Slice.append nil grow r i h else Val (r, h));
      FilterByFunction_range fn c (S idx) n' rh.1 rh.2
  end.

(** [func (c IssueCollection) FilterByFunction(fn func( *Issue) bool) IssueCollection] *)
Definition FilterByFunction (c : IssueCollection) (fn : ptr Issue -> go bool)
    (h : heap) : go (IssueCollection * heap) :=
  rh ← NewIssueCollection 0 h;
  FilterByFunction_range fn c O (s_len c) rh.1 rh.2.

End Panicking.
End Panicking.

(** [func(i *Issue) bool { return !p(i) }] *)
Definition negation (p : ptr Issue -> go bool) : ptr Issue -> go bool :=
  fun i => b ← p i; Val (negb b).

(** ** What the story point total is compared with *)

(** The answer of a predicate that returned. *)
Definition holds (m : go bool) : bool :=
  match m with
  | Val b => b
  | Panic _ => false
  end.

(** The exact sum, in [Z], of the story points of the issues of [l] for
    which [HasStoryPoints()] is [true]. *)
Definition total_points (NoStoryPoints : Z) (l : list Issue) : Z :=
  fold_right Z.add 0
    (map StoryPoints
       (List.filter (fun i => holds (HasStoryPoints NoStoryPoints (Some i))) l)).

(** ** Sample data *)

Module Sample.

Definition no_slice : slice := Slice 0 0 0 0.

Definition approvals (support : bool) : IssueApprovals :=
  {| Development := true; Product := true; Quality := true;
     Experience := true; Documentation := true; Support := support |}.

(** An issue with the given optional fields and story points. *)
Definition issue (status : ptr jira.Status) (priority : ptr jira.Priority)
    (points : Z) : Issue :=
  {| Issue_ :=
       {| jira.Key := "PRJ-1"%string;
          jira.Fields :=
            {| jira.Type_ := {| jira.IssueType_Name := "Story"%string |};
               jira.Status_ := status;
               jira.Resolution_ := nil;
               jira.Priority_ := priority;
               jira.Components := None |} |};
     Link := ""%string;
     ParentLink := ""%string;
     LinkedIssues := no_slice;
     StoryPoints := points;
     Approvals := approvals false;
     QAContact := ""%string;
     Acceptance := ""%string;
     Owner := ""%string;
     Impediment := false;
     Comments := no_slice |}.

Definition status (name : string) : ptr jira.Status :=
  Some {| jira.Status_Name := name |}.

Definition priority (name : string) : ptr jira.Priority :=
  Some {| jira.Priority_Name := name |}.

(** The issue whose status, resolution, priority and components are absent. *)
Definition bare : Issue := issue nil nil 0.

Definition response (code : Z) : ptr jira.Response :=
  Some {| jira.Response_ := {| jira.StatusCode := code |} |}.

Definition timeout : error_value := ClientError "request timed out"%string.

(** A heap with one array that holds issues of 3, 0, 5 and 2 story points,
    and the collection that is this array. *)
Definition points_3052 : list (ptr Issue) :=
  [Some (issue nil nil 3); Some (issue nil nil 0);
   Some (issue nil nil 5); Some (issue nil nil 2)].

Definition heap_3052 : gmap nat (list (ptr Issue)) := {[ 7%nat := points_3052 ]}.

Definition coll_3052 : IssueCollection := Slice 7 0 4 4.

(** [NewIssueCollection(1)] in the empty heap: one slot, not populated. *)
Definition unpopulated_heap : gmap nat (list (ptr Issue)) := {[ 0%nat := [nil] ]}.

Definition unpopulated : IssueCollection := Slice 0 0 1 1.

(** Two issues whose story points are the largest [int]. *)
Definition huge_heap : gmap nat (list (ptr Issue)) :=
  {[ 0%nat := [Some (issue nil nil int_max); Some (issue nil nil int_max)] ]}.

Definition huge : IssueCollection := Slice 0 0 2 2.

Definition double (n : nat) : nat := (2 * n)%nat.

Definition more_than_two (p : ptr Issue) : bool :=
  match p with
  | Some i => StoryPoints i >? 2
  | None => false
  end.

(** An issue with the given resolution and components. *)
Definition resolved (resolution : ptr jira.Resolution)
    (components : option (list jira.Component)) : Issue :=
  {| Issue_ :=
       {| jira.Key := "PRJ-2"%string;
          jira.Fields :=
            {| jira.Type_ := {| jira.IssueType_Name := "Epic"%string |};
               jira.Status_ := status "Done";
               jira.Resolution_ := resolution;
               jira.Priority_ := nil;
               jira.Components := components |} |};
     Link := ""%string;
     ParentLink := ""%string;
     LinkedIssues := no_slice;
     StoryPoints := 0;
     Approvals := approvals false;
     QAContact := ""%string;
     Acceptance := ""%string;
     Owner := ""%string;
     Impediment := false;
     Comments := no_slice |}.

Definition component (name : string) : jira.Component :=
  {| jira.Component_Name := name |}.

(** A heap with one array that holds two issues in progress, one that is
    done, and an issue without a status; the collection of the first three
    and the collection of all four. *)
Definition board_heap : gmap nat (list (ptr Issue)) :=
  {[ 3%nat := [Some (issue (status "In Progress") nil 3);
               Some (issue (status "Done") nil 8);
               Some (issue (status "Code Review") nil 5);
               Some bare] ]}.

Definition board : IssueCollection := Slice 3 0 3 4.

Definition board_all : IssueCollection := Slice 3 0 4 4.

End Sample.

(** ** Reading through pointers *)

Lemma deref_Some {A} (v : A) : deref (Some v) = Val v.
Proof. reflexivity. Qed.

Lemma returns_Val {A} (a : A) : returns (Val a).
Proof. now exists a. Qed.

Lemma Panic_not_returns {A} (p : panic) : ~ returns (@Panic A p).
Proof. intros [a Ha]. discriminate. Qed.

(** ** Approvals *)

Lemma Approved_value (a : IssueApprovals) :
  Approved (Some a) =
  Val (Development a && Product a && Quality a && Experience a && Documentation a).
Proof.
  unfold Approved; simpl.
  destruct (Development a), (Product a), (Quality a), (Experience a),
    (Documentation a); reflexivity.
Qed.

(** C4. [Approved()] returns [true] exactly when Development, Product,
    Quality, Experience and Documentation are all [true], and two approvals
    that agree on these five gates, whatever their Support gates are, get the
    same answer. *)
Theorem Approved_five_gates (a : IssueApprovals) :
  (exists b, Approved (Some a) = Val b /\
     (b = true <->
      Development a = true /\ Product a = true /\ Quality a = true /\
      Experience a = true /\ Documentation a = true)) /\
  (forall a' : IssueApprovals,
     Development a' = Development a -> Product a' = Product a ->
     Quality a' = Quality a -> Experience a' = Experience a ->
     Documentation a' = Documentation a ->
     Approved (Some a') = Approved (Some a)).
Proof.
  split.
  - eexists; split; [apply Approved_value|].
    rewrite !andb_true_iff. tauto.
  - intros a' HD HP HQ HE HDoc.
    rewrite !Approved_value. congruence.
Qed.

Lemma Approved_five_gates_witness :
  Approved (Some (Sample.approvals true)) = Approved (Some (Sample.approvals false)).
Proof.
  apply (proj2 (Approved_five_gates (Sample.approvals false)));
    reflexivity.
Defined.

(** ** Status *)

Lemma IsActive_present (i : Issue) (st : jira.Status) :
  jira.Status_ (Fields i) = Some st ->
  exists b, IsActive (Some i) = Val b /\
    (b = true <-> In (jira.Status_Name st) active_names).
Proof.
  intros Hst. unfold IsActive; simpl. rewrite Hst; simpl.
  unfold active_names.
  destruct (String.eqb_spec (jira.Status_Name st) IssueStatusInProgress) as [->|N1];
    [eexists; split; [reflexivity|]; simpl; tauto|].
  destruct (String.eqb_spec (jira.Status_Name st) IssueStatusFeatureComplete) as [->|N2];
    [eexists; split; [reflexivity|]; simpl; tauto|].
  destruct (String.eqb_spec (jira.Status_Name st) IssueStatusCodeReview) as [->|N3];
    [eexists; split; [reflexivity|]; simpl; tauto|].
  destruct (String.eqb_spec (jira.Status_Name st) IssueStatusQEReview) as [->|N4];
    [eexists; split; [reflexivity|]; simpl; tauto|].
  eexists; split; [reflexivity|].
  split; [discriminate|].
  simpl. intros [H|[H|[H|[H|[]]]]]; congruence.
Qed.

Lemma IsActive_absent (i : Issue) :
  jira.Status_ (Fields i) = nil -> IsActive (Some i) = Panic NilDereference.
Proof. intros Hst. unfold IsActive; simpl. now rewrite Hst. Qed.

(** C2. With a status present, [IsActive()] returns [true] exactly for the
    names In Progress, Feature Complete, Code Review and QE Review, so it
    returns [false] for Done, Obsolete and the empty name.  With the status
    absent it does not return [false]: the read of [i.Fields.Status.Name]
    panics. *)
Theorem IsActive_by_status (i : Issue) :
  (forall st, jira.Status_ (Fields i) = Some st ->
     exists b, IsActive (Some i) = Val b /\
       (b = true <->
        jira.Status_Name st = "In Progress"%string \/
        jira.Status_Name st = "Feature Complete"%string \/
        jira.Status_Name st = "Code Review"%string \/
        jira.Status_Name st = "QE Review"%string)) /\
  (forall st, jira.Status_ (Fields i) = Some st ->
     In (jira.Status_Name st) ["Done"; "Obsolete"; ""]%string ->
     IsActive (Some i) = Val false) /\
  (jira.Status_ (Fields i) = nil ->
   IsActive (Some i) = Panic NilDereference /\ IsActive (Some i) <> Val false).
Proof.
  split; [|split].
  - intros st Hst. destruct (IsActive_present i st Hst) as (b & Hb & Hiff).
    exists b; split; [exact Hb|]. rewrite Hiff. unfold active_names; simpl.
    unfold IssueStatusInProgress, IssueStatusFeatureComplete,
      IssueStatusCodeReview, IssueStatusQEReview.
    intuition congruence.
  - intros st Hst Hin. destruct (IsActive_present i st Hst) as (b & Hb & Hiff).
    rewrite Hb. f_equal. destruct b; [|reflexivity].
    destruct Hiff as [Hiff _]. specialize (Hiff eq_refl).
    exfalso. simpl in Hin, Hiff.
    destruct Hin as [H|[H|[H|[]]]]; rewrite <- H in Hiff;
      destruct Hiff as [H'|[H'|[H'|[H'|[]]]]]; discriminate.
  - intros Hst. rewrite (IsActive_absent i Hst). split; [reflexivity|discriminate].
Qed.

Lemma IsActive_by_status_witness :
  (exists b, IsActive (Some (Sample.issue (Sample.status "QE Review") nil 0)) = Val b /\
     b = true) /\
  IsActive (Some (Sample.issue (Sample.status "Done") nil 0)) = Val false /\
  IsActive (Some Sample.bare) = Panic NilDereference.
Proof.
  split; [|split].
  - destruct (proj1 (IsActive_by_status
                (Sample.issue (Sample.status "QE Review") nil 0))
              {| jira.Status_Name := "QE Review" |} eq_refl)
      as (b & Hb & Hiff).
    exists b; split; [exact Hb|]. apply Hiff. simpl. tauto.
  - apply (proj1 (proj2 (IsActive_by_status
             (Sample.issue (Sample.status "Done") nil 0)))
             {| jira.Status_Name := "Done" |} eq_refl).
    simpl. tauto.
  - apply (proj2 (proj2 (IsActive_by_status Sample.bare))). reflexivity.
Defined.

Lemma InStatus_value (i : Issue) (s : IssueStatus) :
  InStatus (Some i) s =
  Val match jira.Status_ (Fields i) with
      | Some st => String.eqb (jira.Status_Name st) s
      | None => false
      end.
Proof.
  unfold InStatus; simpl. destruct (jira.Status_ (Fields i)); reflexivity.
Qed.

(** C8. [InStatus(s)] returns [true] exactly when the status is present and
    its name is [s]; with the status absent it returns [false] for every [s]. *)
Theorem InStatus_iff_present_and_equal (i : Issue) (s : IssueStatus) :
  (exists b, InStatus (Some i) s = Val b /\
     (b = true <->
      exists st, jira.Status_ (Fields i) = Some st /\ jira.Status_Name st = s)) /\
  (jira.Status_ (Fields i) = nil -> InStatus (Some i) s = Val false).
Proof.
  rewrite InStatus_value. split.
  - eexists; split; [reflexivity|].
    destruct (jira.Status_ (Fields i)) as [st|].
    + rewrite String.eqb_eq. split.
      * intros H. now exists st.
      * intros (st' & Hst' & Hn). congruence.
    + split; [discriminate|]. intros (st' & Hst' & _). discriminate.
  - intros ->. reflexivity.
Qed.

Lemma InStatus_iff_present_and_equal_witness :
  InStatus (Some Sample.bare) IssueStatusDone = Val false.
Proof.
  apply (proj2 (InStatus_iff_present_and_equal Sample.bare IssueStatusDone)).
  reflexivity.
Defined.

(** ** Type, resolution, priority, story points, components *)

Lemma IsType_value (i : Issue) (tp : IssueType) :
  IsType (Some i) tp =
  Val (String.eqb (jira.IssueType_Name (jira.Type_ (Fields i))) tp).
Proof.
  unfold IsType; simpl.
  now destruct (String.eqb (jira.IssueType_Name (jira.Type_ (Fields i))) tp).
Qed.

Lemma IsResolved_value (i : Issue) :
  IsResolved (Some i) =
  Val match jira.Resolution_ (Fields i) with
      | Some r => String.eqb (jira.Resolution_Name r) IssueResolutionDone
      | None => false
      end.
Proof.
  unfold IsResolved; simpl. destruct (jira.Resolution_ (Fields i)) as [r|]; simpl.
  - now destruct (String.eqb (jira.Resolution_Name r) IssueResolutionDone).
  - reflexivity.
Qed.

Lemma IsPrioritized_value (i : Issue) :
  IsPrioritized (Some i) =
  Val match jira.Priority_ (Fields i) with
      | Some p =>
          negb (String.eqb (jira.Priority_Name p) IssuePriorityUnprioritized)
          && negb (String.eqb (jira.Priority_Name p) "")
      | None => true
      end.
Proof.
  unfold IsPrioritized; simpl. destruct (jira.Priority_ (Fields i)) as [p|]; simpl.
  - destruct (String.eqb (jira.Priority_Name p) IssuePriorityUnprioritized); simpl;
      [reflexivity|].
    now destruct (String.eqb (jira.Priority_Name p) "").
  - reflexivity.
Qed.

Lemma HasStoryPoints_value (NoStoryPoints : Z) (i : Issue) :
  HasStoryPoints NoStoryPoints (Some i) = Val (StoryPoints i >? NoStoryPoints).
Proof.
  unfold HasStoryPoints; simpl. now destruct (StoryPoints i >? NoStoryPoints).
Qed.

Lemma HasComponent_range_In (cs : list jira.Component) (name : string) :
  HasComponent_range cs name = true <->
  exists c, In c cs /\ jira.Component_Name c = name.
Proof.
  induction cs as [|c cs IH]; simpl.
  - split; [discriminate|]. intros (c & [] & _).
  - destruct (String.eqb_spec (jira.Component_Name c) name) as [E|N].
    + split; [|reflexivity]. intros _. exists c. auto.
    + rewrite IH. split.
      * intros (c' & Hin & Hn). exists c'. auto.
      * intros (c' & [->|Hin] & Hn); [contradiction|]. now exists c'.
Qed.

(** C3. [IsPrioritized()] returns [true] when the priority is absent,
    [false] when it is present with the empty name or the name
    Unprioritized, and [true] for every other present priority. *)
Theorem IsPrioritized_cases (i : Issue) :
  (jira.Priority_ (Fields i) = nil -> IsPrioritized (Some i) = Val true) /\
  (forall p, jira.Priority_ (Fields i) = Some p ->
     jira.Priority_Name p = ""%string \/
     jira.Priority_Name p = "Unprioritized"%string ->
     IsPrioritized (Some i) = Val false) /\
  (forall p, jira.Priority_ (Fields i) = Some p ->
     jira.Priority_Name p <> ""%string ->
     jira.Priority_Name p <> "Unprioritized"%string ->
     IsPrioritized (Some i) = Val true).
Proof.
  rewrite IsPrioritized_value. split; [|split].
  - intros ->. reflexivity.
  - intros p -> [E|E]; rewrite E; reflexivity.
  - intros p -> N1 N2. f_equal.
    apply String.eqb_neq in N1, N2.
    unfold IssuePriorityUnprioritized. now rewrite N1, N2.
Qed.

Lemma IsPrioritized_cases_witness :
  IsPrioritized (Some Sample.bare) = Val true /\
  IsPrioritized (Some (Sample.issue nil (Sample.priority "") 0)) = Val false /\
  IsPrioritized (Some (Sample.issue nil (Sample.priority "Unprioritized") 0)) = Val false /\
  IsPrioritized (Some (Sample.issue nil (Sample.priority "Blocker") 0)) = Val true.
Proof.
  split; [|split; [|split]].
  - apply (proj1 (IsPrioritized_cases Sample.bare)). reflexivity.
  - apply (proj1 (proj2 (IsPrioritized_cases
             (Sample.issue nil (Sample.priority "") 0)))
             {| jira.Priority_Name := "" |} eq_refl).
    left; reflexivity.
  - apply (proj1 (proj2 (IsPrioritized_cases
             (Sample.issue nil (Sample.priority "Unprioritized") 0)))
             {| jira.Priority_Name := "Unprioritized" |} eq_refl).
    right; reflexivity.
  - apply (proj2 (proj2 (IsPrioritized_cases
             (Sample.issue nil (Sample.priority "Blocker") 0)))
             {| jira.Priority_Name := "Blocker" |} eq_refl); discriminate.
Defined.

(** C9. [HasStoryPoints()] returns [true] exactly when [StoryPoints] is
    strictly greater than [NoStoryPoints]: [false] at the sentinel itself,
    [true] for every greater value. *)
Theorem HasStoryPoints_iff_above_sentinel (NoStoryPoints : Z) (i : Issue) :
  (exists b, HasStoryPoints NoStoryPoints (Some i) = Val b /\
     (b = true <-> StoryPoints i > NoStoryPoints)) /\
  (StoryPoints i = NoStoryPoints ->
   HasStoryPoints NoStoryPoints (Some i) = Val false) /\
  (StoryPoints i > NoStoryPoints ->
   HasStoryPoints NoStoryPoints (Some i) = Val true).
Proof.
  rewrite HasStoryPoints_value. split; [|split].
  - eexists; split; [reflexivity|]. rewrite Z.gtb_ltb, Z.ltb_lt. lia.
  - intros ->. f_equal. rewrite Z.gtb_ltb. apply Z.ltb_irrefl.
  - intros H. f_equal. rewrite Z.gtb_ltb. apply Z.ltb_lt. lia.
Qed.

Lemma HasStoryPoints_iff_above_sentinel_witness :
  HasStoryPoints 0 (Some (Sample.issue nil nil 0)) = Val false /\
  HasStoryPoints 0 (Some (Sample.issue nil nil 1)) = Val true /\
  HasStoryPoints (-1) (Some (Sample.issue nil nil 0)) = Val true.
Proof.
  split; [|split].
  - apply (proj1 (proj2 (HasStoryPoints_iff_above_sentinel 0
             (Sample.issue nil nil 0)))). reflexivity.
  - apply (proj2 (proj2 (HasStoryPoints_iff_above_sentinel 0
             (Sample.issue nil nil 1)))). reflexivity.
  - apply (proj2 (proj2 (HasStoryPoints_iff_above_sentinel (-1)
             (Sample.issue nil nil 0)))). reflexivity.
Defined.

(** C1. Six of the seven classification operations return a boolean on
    every issue, with [false] ([true] for [IsPrioritized]) when the field
    they read is absent.  [IsActive()] is the exception: it returns exactly
    when the status is present and panics on an issue without one. *)
Theorem classification_returns_unless_IsActive_without_status
    (NoStoryPoints : Z) (i : Issue) :
  (forall (tp : IssueType) (s : IssueStatus) (name : string),
     returns (IsType (Some i) tp) /\
     returns (InStatus (Some i) s) /\
     returns (IsResolved (Some i)) /\
     returns (IsPrioritized (Some i)) /\
     returns (HasStoryPoints NoStoryPoints (Some i)) /\
     returns (HasComponent (Some i) name)) /\
  (returns (IsActive (Some i)) <-> jira.Status_ (Fields i) <> nil) /\
  (jira.Status_ (Fields i) = nil ->
   (forall s, InStatus (Some i) s = Val false) /\
   IsActive (Some i) = Panic NilDereference) /\
  (jira.Resolution_ (Fields i) = nil -> IsResolved (Some i) = Val false) /\
  (jira.Priority_ (Fields i) = nil -> IsPrioritized (Some i) = Val true) /\
  (jira.Components (Fields i) = None ->
   forall name, HasComponent (Some i) name = Val false).
Proof.
  split; [|split; [|split; [|split; [|split]]]].
  - intros tp s name.
    rewrite IsType_value, InStatus_value, IsResolved_value,
      IsPrioritized_value, HasStoryPoints_value.
    repeat (split; [apply returns_Val|]).
    unfold HasComponent; simpl.
    destruct (jira.Components (Fields i)); apply returns_Val.
  - destruct (jira.Status_ (Fields i)) as [st|] eqn:Hst.
    + destruct (IsActive_present i st Hst) as (b & Hb & _).
      split; [discriminate|]. intros _. now exists b.
    + rewrite (IsActive_absent i Hst). split.
      * intros H. now apply Panic_not_returns in H.
      * intros H. now contradiction H.
  - intros Hst. split; [|now apply IsActive_absent].
    intros s. rewrite InStatus_value. now rewrite Hst.
  - intros Hr. rewrite IsResolved_value. now rewrite Hr.
  - intros Hp. rewrite IsPrioritized_value. now rewrite Hp.
  - intros Hc name. unfold HasComponent; simpl. now rewrite Hc.
Qed.

Lemma classification_returns_unless_IsActive_without_status_witness :
  (InStatus (Some Sample.bare) IssueStatusDone = Val false /\
   IsActive (Some Sample.bare) = Panic NilDereference) /\
  IsResolved (Some Sample.bare) = Val false /\
  IsPrioritized (Some Sample.bare) = Val true /\
  HasComponent (Some Sample.bare) "backend" = Val false.
Proof.
  destruct (classification_returns_unless_IsActive_without_status 0 Sample.bare)
    as (_ & _ & Hstatus & Hresolution & Hpriority & Hcomponents).
  split; [|split; [|split]].
  - destruct (Hstatus eq_refl) as [Hin Hact]. split; [apply Hin|exact Hact].
  - apply Hresolution. reflexivity.
  - apply Hpriority. reflexivity.
  - apply Hcomponents. reflexivity.
Defined.

(** ** Error translation *)

(** C5. A [nil] error is returned as [nil] whatever the response is; a
    non-[nil] error with status code 401 or 403 becomes [ErrorAuthentication];
    a non-[nil] error with any other status code is returned as it is. *)
Theorem jiraReturnError_translation :
  (forall ret : ptr jira.Response, jiraReturnError ret None = Val None) /\
  (forall (r : jira.Response) (e : error_value),
     jira.StatusCode (jira.Response_ r) = 401 \/
     jira.StatusCode (jira.Response_ r) = 403 ->
     jiraReturnError (Some r) (Some e) = Val (Some ErrorAuthentication)) /\
  (forall (r : jira.Response) (e : error_value),
     jira.StatusCode (jira.Response_ r) <> 401 ->
     jira.StatusCode (jira.Response_ r) <> 403 ->
     jiraReturnError (Some r) (Some e) = Val (Some e)).
Proof.
  split; [|split].
  - reflexivity.
  - intros r e H. unfold jiraReturnError; simpl.
    unfold http.StatusForbidden, http.StatusUnauthorized.
    destruct H as [-> | ->]; reflexivity.
  - intros r e H1 H3. unfold jiraReturnError; simpl.
    unfold http.StatusForbidden, http.StatusUnauthorized.
    apply Z.eqb_neq in H1, H3. now rewrite H1, H3.
Qed.

Lemma jiraReturnError_translation_witness :
  jiraReturnError (Sample.response 500) None = Val None /\
  jiraReturnError (Sample.response 401) (Some Sample.timeout)
    = Val (Some ErrorAuthentication) /\
  jiraReturnError (Sample.response 403) (Some Sample.timeout)
    = Val (Some ErrorAuthentication) /\
  jiraReturnError (Sample.response 500) (Some Sample.timeout)
    = Val (Some Sample.timeout).
Proof.
  split; [|split; [|split]].
  - apply (proj1 jiraReturnError_translation).
  - apply (proj1 (proj2 jiraReturnError_translation)
             {| jira.Response_ := {| jira.StatusCode := 401 |} |}).
    left; reflexivity.
  - apply (proj1 (proj2 jiraReturnError_translation)
             {| jira.Response_ := {| jira.StatusCode := 403 |} |}).
    right; reflexivity.
  - apply (proj2 (proj2 jiraReturnError_translation)
             {| jira.Response_ := {| jira.StatusCode := 500 |} |});
      simpl; lia.
Defined.

(** C10. With a [nil] error the function returns [nil] for every response
    pointer, the [nil] pointer too.  With a non-[nil] error it reads the
    status code through the response pointer, so it returns exactly when
    that pointer is not [nil] and panics when it is. *)
Theorem jiraReturnError_defined_iff (ret : ptr jira.Response) (err : error) :
  (err = None -> jiraReturnError ret err = Val None) /\
  (err <> None -> (returns (jiraReturnError ret err) <-> ret <> nil)) /\
  (err <> None -> ret = nil -> jiraReturnError ret err = Panic NilDereference).
Proof.
  split; [|split].
  - intros ->. reflexivity.
  - intros He. destruct err as [e|]; [|congruence].
    destruct ret as [r|]; unfold jiraReturnError, nil; simpl.
    + split; [discriminate|]. intros _.
      destruct ((_ =? _) || (_ =? _)); apply returns_Val.
    + split; [intros H; now apply Panic_not_returns in H | congruence].
  - intros He ->. destruct err as [e|]; [reflexivity|congruence].
Qed.

Lemma jiraReturnError_defined_iff_witness :
  jiraReturnError nil None = Val None /\
  returns (jiraReturnError (Sample.response 500) (Some Sample.timeout)) /\
  jiraReturnError nil (Some Sample.timeout) = Panic NilDereference.
Proof.
  split; [|split].
  - apply (proj1 (jiraReturnError_defined_iff nil None)). reflexivity.
  - apply (proj1 (proj2 (jiraReturnError_defined_iff
             (Sample.response 500) (Some Sample.timeout)))); discriminate.
  - apply (proj2 (proj2 (jiraReturnError_defined_iff
             nil (Some Sample.timeout)))); [discriminate|reflexivity].
Defined.

(** ** Slices and their backing arrays *)

Section SliceFacts.

Local Open Scope nat_scope.

Context {A : Type}.
Variable zero : A.
Variable grow : nat -> nat.

Implicit Types (h : gmap nat (list A)) (s : slice) (x : A).

Lemma elems_length h s : Slice.valid h s -> length (Slice.elems h s) = s_len s.
Proof.
  intros [Hlen Hcap]. unfold Slice.elems.
  rewrite length_take, length_drop. lia.
Qed.

Lemma elems_lookup h s idx :
  idx < s_len s ->
  Slice.elems h s !! idx = default [] (h !! s_array s) !! (s_off s + idx).
Proof.
  intros Hidx. unfold Slice.elems.
  now rewrite lookup_take_lt, lookup_drop by lia.
Qed.

(** Inside its length, indexing a valid slice returns the element. *)
Lemma index_elems h s idx :
  Slice.valid h s -> idx < s_len s ->
  exists x, Slice.index h s idx = Val x /\ Slice.elems h s !! idx = Some x.
Proof.
  intros [Hlen Hcap] Hidx. rewrite elems_lookup by assumption.
  unfold Slice.index. apply Nat.ltb_lt in Hidx as Hb; rewrite Hb.
  destruct (h !! s_array s) as [arr|]; simpl in *; [|lia].
  destruct (lookup_lt_is_Some_2 arr (s_off s + idx)) as [x Hx]; [lia|].
  rewrite Hx. now exists x.
Qed.

(** Arrays that are added to the heap do not change what a valid slice
    describes. *)
Lemma valid_weaken h h' s :
  h ⊆ h' -> Slice.valid h s ->
  Slice.valid h' s /\ Slice.elems h' s = Slice.elems h s.
Proof.
  intros Hsub [Hlen Hcap]. unfold Slice.valid, Slice.elems in *.
  destruct (h !! s_array s) as [arr|] eqn:Harr; simpl in *.
  - now rewrite (lookup_weaken _ _ _ _ Harr Hsub).
  - assert (s_len s = 0) as -> by lia.
    split; [lia|]. now rewrite !take_0.
Qed.

Lemma index_weaken h h' s idx :
  h ⊆ h' -> Slice.valid h s -> idx < s_len s ->
  Slice.index h' s idx = Slice.index h s idx.
Proof.
  intros Hsub [Hlen Hcap] Hidx. unfold Slice.index.
  destruct (h !! s_array s) as [arr|] eqn:Harr; simpl in *; [|lia].
  now rewrite (lookup_weaken _ _ _ _ Harr Hsub).
Qed.

Lemma fresh_unallocated h : h !! fresh (dom h) = None.
Proof. apply not_elem_of_dom, is_fresh. Qed.

(** [make] returns a slice of zero values in storage of its own. *)
Lemma make_spec size h :
  let s := (Slice.make zero size h).1 in
  let h' := (Slice.make zero size h).2 in
  Slice.valid h' s /\ Slice.elems h' s = replicate size zero /\
  s_len s = size /\ h !! s_array s = None /\ h ⊆ h'.
Proof.
  simpl. unfold Slice.valid, Slice.elems; simpl.
  rewrite lookup_insert_eq; simpl. rewrite length_replicate.
  repeat split; try lia.
  - rewrite drop_0. apply take_ge. now rewrite length_replicate.
  - apply fresh_unallocated.
  - apply insert_subseteq, fresh_unallocated.
Qed.

(** [append] returns a slice that holds the old elements and then [x];
    the arrays of every part [h0] of the heap that does not hold the
    storage of [s] are left as they were, and the storage of the result
    is not among them either. *)
Lemma append_spec h s x :
  Slice.valid h s ->
  exists s' h',
    Slice.append zero grow s x h = Val (s', h') /\
    Slice.valid h' s' /\
    Slice.elems h' s' = Slice.elems h s ++ [x] /\
    forall h0, h0 ⊆ h -> h0 !! s_array s = None ->
      h0 ⊆ h' /\ h0 !! s_array s' = None.
Proof.
  intros Hv. pose proof (elems_length h s Hv) as Hl.
  destruct Hv as [Hlen Hcap]. unfold Slice.append.
  destruct (s_len s <? s_cap s) eqn:Hlt.
  - apply Nat.ltb_lt in Hlt.
    destruct (h !! s_array s) as [arr|] eqn:Harr; simpl in Hcap; [|lia].
    assert (s_off s + s_len s < length arr) as Hin by lia.
    apply Nat.ltb_lt in Hin as Hb; rewrite Hb.
    eexists _, _; split; [reflexivity|].
    unfold Slice.valid, Slice.elems; simpl.
    rewrite lookup_insert_eq, Harr; simpl. rewrite length_insert.
    repeat split; try lia.
    + rewrite (take_S_r _ _ x).
      * f_equal. rewrite drop_insert_ge by lia.
        rewrite take_insert. case_decide; [lia|reflexivity].
      * rewrite lookup_drop. now apply list_lookup_insert_eq.
    + now apply insert_subseteq_r.
    + assumption.
  - apply Nat.ltb_ge in Hlt.
    eexists _, _; split; [reflexivity|].
    unfold Slice.valid; simpl.
    unfold Slice.elems at 2; simpl.
    rewrite lookup_insert_eq; simpl.
    rewrite length_app; simpl. rewrite length_replicate, Hl.
    repeat split; try lia.
    + change (?l ++ x :: ?k) with (l ++ [x] ++ k). rewrite app_assoc.
      apply take_app_length'. rewrite length_app, Hl; simpl. lia.
    + apply insert_subseteq_r; [|assumption].
      eapply lookup_weaken_None; [apply fresh_unallocated|eassumption].
    + eapply lookup_weaken_None; [apply fresh_unallocated|eassumption].
Qed.

End SliceFacts.

(** ** Filtering a collection *)

Section FilterFacts.

Local Open Scope nat_scope.

Variable grow : nat -> nat.
Variable fn : ptr Issue -> bool.

Implicit Types (h : gmap nat (list (ptr Issue))) (c r : IssueCollection).

(** The loop, started at index [idx] with [r] built so far: [h0] is the
    heap at the call, whose arrays [r] does not use. *)
Lemma FilterByFunction_range_spec h0 c n :
  Slice.valid h0 c ->
  forall idx r h,
    idx + n = s_len c ->
    h0 ⊆ h -> h0 !! s_array r = None -> Slice.valid h r ->
    exists r' h',
      Collection.FilterByFunction_range grow fn c idx n r h = Val (r', h') /\
      Slice.valid h' r' /\
      Slice.elems h' r' =
        Slice.elems h r ++ List.filter fn (drop idx (Slice.elems h0 c)) /\
      h0 ⊆ h' /\ h0 !! s_array r' = None.
Proof.
  intros Hc. induction n as [|n IH]; intros idx r h Hn Hsub Hnew Hr.
  - exists r, h.
    rewrite drop_ge by (rewrite elems_length by assumption; lia).
    cbn [Collection.FilterByFunction_range List.filter].
    rewrite app_nil_r. repeat (split; [first [reflexivity|assumption]|]). assumption.
  - destruct (index_elems h0 c idx Hc) as (i & Hi & Hlook); [lia|].
    rewrite (drop_S _ _ _ Hlook).
    cbn [Collection.FilterByFunction_range List.filter].
    rewrite (index_weaken h0 h c idx Hsub Hc) by lia. rewrite Hi.
    cbn [mbind go_bind].
    destruct (fn i) eqn:Hfn.
    + destruct (append_spec nil grow h r i Hr) as (r1 & h1 & Happ & Hr1 & He1 & Hkeep).
      rewrite Happ. cbn [mbind go_bind fst snd].
      destruct (Hkeep h0 Hsub Hnew) as [Hsub1 Hnew1].
      destruct (IH (S idx) r1 h1) as (r' & h' & Hrun & Hr' & He' & Hsub' & Hnew');
        try assumption; [lia|].
      exists r', h'. repeat (split; [first [reflexivity|assumption]|]).
      split; [|split; assumption].
      rewrite He', He1, <- app_assoc. reflexivity.
    + cbn [mbind go_bind fst snd].
      destruct (IH (S idx) r h) as (r' & h' & Hrun & Hr' & He' & Hsub' & Hnew');
        try assumption; [lia|].
      exists r', h'. repeat (split; [first [reflexivity|assumption]|]). assumption.
Qed.

Lemma FilterByFunction_spec h c :
  Slice.valid h c ->
  exists r h',
    Collection.FilterByFunction grow c fn h = Val (r, h') /\
    Slice.valid h' r /\
    Slice.elems h' r = List.filter fn (Slice.elems h c) /\
    h ⊆ h' /\ h !! s_array r = None.
Proof.
  intros Hc.
  destruct (make_spec (@nil Issue) 0 h) as (Hr0 & He0 & _ & Hnew0 & Hsub0).
  destruct (FilterByFunction_range_spec h c (s_len c) Hc 0 _ _
              eq_refl Hsub0 Hnew0 Hr0)
    as (r' & h' & Hrun & Hr' & He' & Hsub' & Hnew').
  exists r', h'.
  split; [|split; [assumption|split; [|split; assumption]]].
  - unfold Collection.FilterByFunction, NewIssueCollection.
    change ((0 <? 0) || (max_make_len <? 0))%Z with false.
    cbn [mbind go_bind Z.to_nat].
    exact Hrun.
  - rewrite He', He0, drop_0. reflexivity.
Qed.

End FilterFacts.

Lemma filter_all {A} (f : A -> bool) (l : list A) :
  (forall x, f x = true) -> List.filter f l = l.
Proof.
  intros Hf. induction l as [|x l IH]; simpl; [reflexivity|].
  now rewrite Hf, IH.
Qed.

Lemma filter_none {A} (f : A -> bool) (l : list A) :
  (forall x, f x = false) -> List.filter f l = [].
Proof.
  intros Hf. induction l as [|x l IH]; simpl; [reflexivity|].
  now rewrite Hf, IH.
Qed.

(** [FilterByFunction(p)] for a predicate that returns on every pointer:
    the result is in storage that did not exist before the call; its
    elements are the elements of [c] on which [p] is [true], in the order
    they have in [c]; every array that existed before the call, the one
    behind [c] among them, holds after the call what it held before. *)
Lemma FilterByFunction_filters (grow : nat -> nat)
    (h : gmap nat (list (ptr Issue))) (c : IssueCollection)
    (p : ptr Issue -> bool) :
  Slice.valid h c ->
  exists (r : IssueCollection) (h' : gmap nat (list (ptr Issue))),
    Collection.FilterByFunction grow c p h = Val (r, h') /\
    Slice.valid h' r /\
    Slice.elems h' r = List.filter p (Slice.elems h c) /\
    h !! s_array r = None /\
    (forall a arr, h !! a = Some arr -> h' !! a = Some arr) /\
    Slice.elems h' c = Slice.elems h c /\
    ((forall i, p i = true) -> Slice.elems h' r = Slice.elems h c) /\
    ((forall i, p i = false) -> Collection.Len r = 0).
Proof.
  intros Hc.
  destruct (FilterByFunction_spec grow p h c Hc) as (r & h' & Hrun & Hr & He & Hsub & Hnew).
  exists r, h'. repeat (split; [first [reflexivity|assumption]|]).
  split; [|split; [|split]].
  - intros a arr Ha. exact (lookup_weaken _ _ _ _ Ha Hsub).
  - apply (valid_weaken h h' c Hsub Hc).
  - intros Hall. now rewrite He, filter_all.
  - intros Hnone. unfold Collection.Len.
    rewrite <- (elems_length h' r Hr), He, filter_none by assumption.
    reflexivity.
Qed.

(** ** [int] arithmetic *)

Lemma int_wrap_in_int (z : Z) : in_int (int_wrap z).
Proof.
  unfold in_int, int_wrap, int_min, int_max.
  pose proof (Z.mod_pos_bound (z + 2 ^ 63) (2 ^ 64)). lia.
Qed.

Lemma int_wrap_id (z : Z) : in_int z -> int_wrap z = z.
Proof.
  unfold in_int, int_wrap, int_min, int_max. intros Hz.
  rewrite Z.mod_small; lia.
Qed.

Lemma int_wrap_add_l (a b : Z) : int_wrap (int_wrap a + b) = int_wrap (a + b).
Proof.
  unfold int_wrap. f_equal.
  replace ((a + 2 ^ 63) mod 2 ^ 64 - 2 ^ 63 + b + 2 ^ 63)
    with ((a + 2 ^ 63) mod 2 ^ 64 + b) by lia.
  rewrite Zplus_mod_idemp_l. f_equal. lia.
Qed.

(** ** The story points of a collection *)

Lemma total_points_cons (N : Z) (i : Issue) (l : list Issue) :
  total_points N (i :: l) =
  (if StoryPoints i >? N then StoryPoints i else 0) + total_points N l.
Proof.
  unfold total_points; simpl. rewrite HasStoryPoints_value; simpl.
  now destruct (StoryPoints i >? N).
Qed.

Lemma total_points_Permutation (N : Z) (l l' : list Issue) :
  Permutation l l' -> total_points N l = total_points N l'.
Proof.
  induction 1 as [|i l l' _ IH|i j l|l l' l'' _ IH1 _ IH2].
  - reflexivity.
  - rewrite !total_points_cons. lia.
  - rewrite !total_points_cons. lia.
  - congruence.
Qed.

Section StoryPointsFacts.

Local Open Scope nat_scope.

Variable N : Z.

Implicit Types (h : gmap nat (list (ptr Issue))) (c : IssueCollection).

(** The loop from index [idx] on, over slots that are all populated. *)
Lemma StoryPoints_range_populated h c n :
  Slice.valid h c ->
  forall idx (l : list Issue) (points : Z),
    idx + n = s_len c ->
    drop idx (Slice.elems h c) = map Some l ->
    in_int points ->
    Collection.StoryPoints_range N c h idx n points
    = Val (int_wrap (points + total_points N l)).
Proof.
  intros Hc. induction n as [|n IH]; intros idx l points Hn Hl Hp.
  - rewrite drop_ge in Hl by (rewrite elems_length by assumption; lia).
    destruct l; [|discriminate].
    cbn [Collection.StoryPoints_range]. unfold total_points; simpl.
    rewrite Z.add_0_r. now rewrite int_wrap_id.
  - destruct (index_elems h c idx Hc) as (x & Hx & Hlook); [lia|].
    rewrite (drop_S _ _ _ Hlook) in Hl.
    destruct l as [|i l]; [discriminate|].
    cbn [map] in Hl. injection Hl as -> Hl.
    cbn [Collection.StoryPoints_range]. rewrite Hx. cbn [mbind go_bind].
    rewrite HasStoryPoints_value. cbn [mbind go_bind].
    rewrite total_points_cons.
    destruct (StoryPoints i >? N)%Z.
    + rewrite deref_Some. cbn [mbind go_bind].
      rewrite (IH (S idx) l) by
        (try assumption; try lia; apply int_wrap_in_int).
      unfold int_add. rewrite int_wrap_add_l. f_equal. f_equal. lia.
    + cbn [mbind go_bind].
      rewrite (IH (S idx) l) by (try assumption; lia).
      f_equal.
  Qed.

(** The loop from index [idx] on, with a slot that is not populated. *)
Lemma StoryPoints_range_nil h c n :
  Slice.valid h c ->
  forall idx (points : Z),
    idx + n = s_len c ->
    In nil (drop idx (Slice.elems h c)) ->
    Collection.StoryPoints_range N c h idx n points = Panic NilDereference.
Proof.
  intros Hc. induction n as [|n IH]; intros idx points Hn Hin.
  - rewrite drop_ge in Hin by (rewrite elems_length by assumption; lia).
    destruct Hin.
  - destruct (index_elems h c idx Hc) as (x & Hx & Hlook); [lia|].
    rewrite (drop_S _ _ _ Hlook) in Hin.
    cbn [Collection.StoryPoints_range]. rewrite Hx. cbn [mbind go_bind].
    destruct x as [i|]; [|reflexivity].
    destruct Hin as [Hin|Hin]; [discriminate|].
    rewrite HasStoryPoints_value. cbn [mbind go_bind].
    destruct (StoryPoints i >? N)%Z.
    + rewrite deref_Some. cbn [mbind go_bind]. now apply IH; [lia|].
    + cbn [mbind go_bind]. now apply IH; [lia|].
Qed.

Lemma StoryPoints_populated h c (l : list Issue) :
  Slice.valid h c -> Slice.elems h c = map Some l ->
  Collection.StoryPoints N c h = Val (int_wrap (total_points N l)).
Proof.
  intros Hc Hl. unfold Collection.StoryPoints.
  rewrite (StoryPoints_range_populated h c (s_len c) Hc 0 l 0%Z);
    [reflexivity|reflexivity|now rewrite drop_0|].
  unfold in_int, int_min, int_max. lia.
Qed.

Lemma StoryPoints_nil h c :
  Slice.valid h c -> In nil (Slice.elems h c) ->
  Collection.StoryPoints N c h = Panic NilDereference.
Proof.
  intros Hc Hin. unfold Collection.StoryPoints.
  apply StoryPoints_range_nil; [assumption|reflexivity|now rewrite drop_0].
Qed.

(** A list of pointers has a [nil] in it or is a list of issues. *)
Lemma populated_or_nil (l : list (ptr Issue)) :
  In nil l \/ exists l' : list Issue, l = map Some l'.
Proof.
  induction l as [|[i|] l IH].
  - right. now exists [].
  - destruct IH as [Hin|(l' & ->)].
    + left. now right.
    + right. now exists (i :: l').
  - left. now left.
Qed.

Lemma StoryPoints_Permutation h c h' c' :
  Slice.valid h c -> Slice.valid h' c' ->
  Permutation (Slice.elems h c) (Slice.elems h' c') ->
  Collection.StoryPoints N c' h' = Collection.StoryPoints N c h.
Proof.
  intros Hc Hc' Hperm.
  destruct (populated_or_nil (Slice.elems h c)) as [Hin|(l & Hl)].
  - rewrite (StoryPoints_nil h c Hc Hin).
    apply StoryPoints_nil; [assumption|].
    eapply Permutation_in; eassumption.
  - rewrite Hl in Hperm. apply Permutation_sym in Hperm.
    apply Permutation_map_inv in Hperm as (l' & Hl' & Hperm).
    rewrite (StoryPoints_populated h c l Hc Hl).
    rewrite (StoryPoints_populated h' c' l' Hc' Hl').
    now rewrite (total_points_Permutation N l l').
Qed.

End StoryPointsFacts.

(** C7, as the source has it. On a collection whose slots are all
    populated, [StoryPoints()] returns the sum of the [StoryPoints] of the
    elements for which [HasStoryPoints()] is [true], the other elements
    adding nothing; the sum is taken in [int], so it is the exact sum
    brought into the range of [int], and the exact sum itself when that is
    in range.  On a collection with a slot that is [nil] the call panics.
    The outcome is the same for every order of the elements.  Story points
    3, 0, 5 and 2 add up to 10 when the sentinel is 0, and for every other
    sentinel below 2. *)
Theorem StoryPoints_sum_of_populated (NoStoryPoints : Z) :
  (forall (h : gmap nat (list (ptr Issue))) (c : IssueCollection),
     Slice.valid h c ->
     (forall l : list Issue,
        Slice.elems h c = map Some l ->
        Collection.StoryPoints NoStoryPoints c h
          = Val (int_wrap (total_points NoStoryPoints l)) /\
        (in_int (total_points NoStoryPoints l) ->
         Collection.StoryPoints NoStoryPoints c h
           = Val (total_points NoStoryPoints l))) /\
     (In nil (Slice.elems h c) ->
      Collection.StoryPoints NoStoryPoints c h = Panic NilDereference) /\
     (forall (h' : gmap nat (list (ptr Issue))) (c' : IssueCollection),
        Slice.valid h' c' ->
        Permutation (Slice.elems h c) (Slice.elems h' c') ->
        Collection.StoryPoints NoStoryPoints c' h'
          = Collection.StoryPoints NoStoryPoints c h)) /\
  (NoStoryPoints < 2 ->
   Collection.StoryPoints NoStoryPoints Sample.coll_3052 Sample.heap_3052
     = Val 10).
Proof.
  split.
  - intros h c Hc. split; [|split].
    + intros l Hl. split.
      * now apply StoryPoints_populated.
      * intros Hin. rewrite (StoryPoints_populated _ h c l Hc Hl).
        now rewrite int_wrap_id.
    + now apply StoryPoints_nil.
    + intros h' c' Hc' Hperm. now apply StoryPoints_Permutation.
  - intros HN.
    rewrite (StoryPoints_populated NoStoryPoints Sample.heap_3052
               Sample.coll_3052
               [Sample.issue nil nil 3; Sample.issue nil nil 0;
                Sample.issue nil nil 5; Sample.issue nil nil 2]);
      [|split; vm_compute; lia|reflexivity].
    rewrite !total_points_cons. cbn [StoryPoints Sample.issue].
    change (total_points NoStoryPoints []) with 0.
    f_equal.
    destruct (Z.gtb_spec 3 NoStoryPoints); [|lia].
    destruct (Z.gtb_spec 5 NoStoryPoints); [|lia].
    destruct (Z.gtb_spec 2 NoStoryPoints); [|lia].
    destruct (Z.gtb_spec 0 NoStoryPoints); reflexivity.
Qed.

(** Story points 3, 0, 5 and 2 with 0 as the sentinel add up to 10, and so
    do they in the order 2, 5, 0, 3. *)
Lemma StoryPoints_sum_of_populated_witness :
  Collection.StoryPoints 0 Sample.coll_3052 Sample.heap_3052 = Val 10 /\
  Collection.StoryPoints 0 Sample.coll_3052
    {[ 7%nat := rev Sample.points_3052 ]} = Val 10 /\
  Collection.StoryPoints 0 Sample.unpopulated Sample.unpopulated_heap
    = Panic NilDereference.
Proof.
  assert (Slice.valid Sample.heap_3052 Sample.coll_3052) as Hc
    by (split; vm_compute; lia).
  assert (Slice.valid ({[ 7%nat := rev Sample.points_3052 ]}
                       : gmap nat (list (ptr Issue))) Sample.coll_3052) as Hc'
    by (split; vm_compute; lia).
  assert (Slice.valid Sample.unpopulated_heap Sample.unpopulated) as Hu
    by (split; vm_compute; lia).
  destruct (StoryPoints_sum_of_populated 0) as [Hall H10].
  destruct (Hall Sample.heap_3052 Sample.coll_3052 Hc) as (Hsum & _ & Hperm).
  assert (Collection.StoryPoints 0 Sample.coll_3052 Sample.heap_3052 = Val 10)
    as Hdirect.
  { apply (proj2 (Hsum [Sample.issue nil nil 3; Sample.issue nil nil 0;
                        Sample.issue nil nil 5; Sample.issue nil nil 2]
                       eq_refl)).
    vm_compute. split; discriminate. }
  split; [|split].
  - apply H10. lia.
  - rewrite <- Hdirect. apply Hperm; [exact Hc'|].
    apply Permutation_rev.
  - apply (proj1 (proj2 (Hall Sample.unpopulated_heap Sample.unpopulated Hu))).
    left. reflexivity.
Defined.

(** C7 as it is stated fails on two collections: one with a slot that was
    never populated, on which the call panics instead of returning a sum, and
    one whose exact sum does not fit in an [int]. *)
Lemma StoryPoints_not_the_sum_on_every_collection :
  (NewIssueCollection 1 ∅ = Val (Sample.unpopulated, Sample.unpopulated_heap) /\
   Slice.valid Sample.unpopulated_heap Sample.unpopulated /\
   ~ returns (Collection.StoryPoints 0 Sample.unpopulated Sample.unpopulated_heap)) /\
  (Slice.valid Sample.huge_heap Sample.huge /\
   Slice.elems Sample.huge_heap Sample.huge
     = map Some [Sample.issue nil nil int_max; Sample.issue nil nil int_max] /\
   Collection.StoryPoints 0 Sample.huge Sample.huge_heap
     <> Val (total_points 0
               [Sample.issue nil nil int_max; Sample.issue nil nil int_max])).
Proof.
  split; [split; [|split]|split; [|split]].
  - reflexivity.
  - split; vm_compute; lia.
  - change (Collection.StoryPoints 0 Sample.unpopulated Sample.unpopulated_heap)
      with (@Panic Z NilDereference).
    apply Panic_not_returns.
  - split; vm_compute; lia.
  - reflexivity.
  - change (Collection.StoryPoints 0 Sample.huge Sample.huge_heap)
      with (Val (-2)).
    change (total_points 0
              [Sample.issue nil nil int_max; Sample.issue nil nil int_max])
      with (2 ^ 64 - 2).
    intros H. injection H as H. discriminate H.
Qed.

(** ** More on the classification of one issue *)

(** X1. [IsType(tp)] returns [true] exactly when the type name of the issue
    is [tp], so an issue is of one type only: when [IsType] is [true] for a
    type it is [false] for every other one. *)
Theorem IsType_exact_and_exclusive (i : Issue) (t1 t2 : IssueType) :
  (IsType (Some i) t1 = Val true <->
   jira.IssueType_Name (jira.Type_ (Fields i)) = t1) /\
  (IsType (Some i) t1 = Val false <->
   jira.IssueType_Name (jira.Type_ (Fields i)) <> t1) /\
  (t1 <> t2 -> IsType (Some i) t1 = Val true -> IsType (Some i) t2 = Val false).
Proof.
  rewrite !IsType_value.
  destruct (String.eqb_spec (jira.IssueType_Name (jira.Type_ (Fields i))) t1) as [E1|N1];
    (split; [|split]); try (split; congruence).
  - intros Hne _. f_equal. apply String.eqb_neq. congruence.
  - intros _ H. discriminate H.
Qed.

Lemma IsType_exact_and_exclusive_witness :
  IsType (Some (Sample.issue nil nil 0)) IssueTypeEpic = Val false.
Proof.
  apply (proj2 (proj2 (IsType_exact_and_exclusive
           (Sample.issue nil nil 0) IssueTypeStory IssueTypeEpic)));
    [discriminate|reflexivity].
Defined.

(** X2. [IsResolved()] returns [true] exactly when the resolution is
    present and its name is Done; with the resolution absent it returns
    [false], whatever the status of the issue is. *)
Theorem IsResolved_iff_resolution_Done (i : Issue) :
  (exists b, IsResolved (Some i) = Val b /\
     (b = true <->
      exists r, jira.Resolution_ (Fields i) = Some r /\
                jira.Resolution_Name r = "Done"%string)) /\
  (jira.Resolution_ (Fields i) = nil -> IsResolved (Some i) = Val false).
Proof.
  rewrite IsResolved_value. split.
  - eexists; split; [reflexivity|].
    destruct (jira.Resolution_ (Fields i)) as [r|].
    + unfold IssueResolutionDone. rewrite String.eqb_eq. split.
      * intros H. now exists r.
      * intros (r' & Hr' & Hn). congruence.
    + split; [discriminate|]. intros (r' & Hr' & _). discriminate.
  - intros ->. reflexivity.
Qed.

Lemma IsResolved_iff_resolution_Done_witness :
  IsResolved (Some (Sample.resolved nil None)) = Val false /\
  InStatus (Some (Sample.resolved nil None)) IssueStatusDone = Val true.
Proof.
  split; [|reflexivity].
  apply (proj2 (IsResolved_iff_resolution_Done (Sample.resolved nil None))).
  reflexivity.
Defined.

(** X3. [HasComponent(name)] returns [true] exactly when the components are
    not [nil] and one of them has the name [name]; it returns [false] for
    [nil] components and for an empty list of components. *)
Theorem HasComponent_iff_listed (i : Issue) (name : string) :
  (exists b, HasComponent (Some i) name = Val b /\
     (b = true <->
      exists cs c, jira.Components (Fields i) = Some cs /\
                   In c cs /\ jira.Component_Name c = name)) /\
  (jira.Components (Fields i) = None \/ jira.Components (Fields i) = Some [] ->
   HasComponent (Some i) name = Val false).
Proof.
  unfold HasComponent; simpl. split.
  - destruct (jira.Components (Fields i)) as [cs|].
    + eexists; split; [reflexivity|]. rewrite HasComponent_range_In. split.
      * intros (c & Hin & Hn). now exists cs, c.
      * intros (cs' & c & Hcs & Hin & Hn). injection Hcs as <-. now exists c.
    + eexists; split; [reflexivity|]. split; [discriminate|].
      intros (cs & c & Hcs & _). discriminate.
  - intros [-> | ->]; reflexivity.
Qed.

Lemma HasComponent_iff_listed_witness :
  HasComponent (Some (Sample.resolved nil None)) "backend" = Val false /\
  HasComponent (Some (Sample.resolved nil (Some []))) "backend" = Val false /\
  (exists b,
     HasComponent
       (Some (Sample.resolved nil
                (Some [Sample.component "frontend"; Sample.component "backend"])))
       "backend" = Val b /\ b = true).
Proof.
  split; [|split].
  - apply (proj2 (HasComponent_iff_listed (Sample.resolved nil None) "backend")).
    left; reflexivity.
  - apply (proj2 (HasComponent_iff_listed (Sample.resolved nil (Some [])) "backend")).
    right; reflexivity.
  - destruct (proj1 (HasComponent_iff_listed
                (Sample.resolved nil
                   (Some [Sample.component "frontend"; Sample.component "backend"]))
                "backend")) as (b & Hb & Hiff).
    exists b; split; [exact Hb|]. apply Hiff.
    exists [Sample.component "frontend"; Sample.component "backend"],
      (Sample.component "backend").
    split; [reflexivity|]. split; [|reflexivity]. right; left; reflexivity.
Defined.

(** X4. On an issue with a status, [IsActive()] is the disjunction of
    [InStatus] for In Progress, Feature Complete, Code Review and QE Review;
    an active issue is in neither of the statuses Done and Obsolete; and an
    issue is in one status only. *)
Theorem IsActive_agrees_with_InStatus (i : Issue) :
  (jira.Status_ (Fields i) <> nil ->
   exists a p f c q,
     IsActive (Some i) = Val a /\
     InStatus (Some i) IssueStatusInProgress = Val p /\
     InStatus (Some i) IssueStatusFeatureComplete = Val f /\
     InStatus (Some i) IssueStatusCodeReview = Val c /\
     InStatus (Some i) IssueStatusQEReview = Val q /\
     a = p || f || c || q) /\
  (IsActive (Some i) = Val true ->
   InStatus (Some i) IssueStatusDone = Val false /\
   InStatus (Some i) IssueStatusObsolete = Val false) /\
  (forall s1 s2, s1 <> s2 ->
     InStatus (Some i) s1 = Val true -> InStatus (Some i) s2 = Val false).
Proof.
  rewrite !InStatus_value.
  destruct (jira.Status_ (Fields i)) as [st|] eqn:Hst.
  - assert (IsActive (Some i) =
            Val (String.eqb (jira.Status_Name st) IssueStatusInProgress
                 || String.eqb (jira.Status_Name st) IssueStatusFeatureComplete
                 || String.eqb (jira.Status_Name st) IssueStatusCodeReview
                 || String.eqb (jira.Status_Name st) IssueStatusQEReview)) as Hact.
    { unfold IsActive; simpl. rewrite Hst; simpl.
      destruct (String.eqb (jira.Status_Name st) IssueStatusInProgress); [reflexivity|].
      destruct (String.eqb (jira.Status_Name st) IssueStatusFeatureComplete); [reflexivity|].
      destruct (String.eqb (jira.Status_Name st) IssueStatusCodeReview); [reflexivity|].
      destruct (String.eqb (jira.Status_Name st) IssueStatusQEReview); reflexivity. }
    split; [|split].
    + intros _. do 5 eexists.
      split; [exact Hact|]. repeat (split; [reflexivity|]). reflexivity.
    + rewrite Hact. intros H. injection H as H.
      rewrite !orb_true_iff, !String.eqb_eq in H.
      split; f_equal; apply String.eqb_neq; intros E; rewrite E in H;
        destruct H as [[[H|H]|H]|H]; discriminate H.
    + intros s1 s2 Hne H. rewrite InStatus_value, Hst in *.
      injection H as H. apply String.eqb_eq in H.
      f_equal. apply String.eqb_neq. congruence.
  - rewrite (IsActive_absent i Hst). split; [|split].
    + intros H. now contradiction H.
    + discriminate.
    + intros s1 s2 _ H. rewrite InStatus_value, Hst in H. discriminate H.
Qed.

Lemma IsActive_agrees_with_InStatus_witness :
  InStatus (Some (Sample.issue (Sample.status "Code Review") nil 0))
    IssueStatusDone = Val false /\
  InStatus (Some (Sample.issue (Sample.status "Code Review") nil 0))
    IssueStatusObsolete = Val false /\
  InStatus (Some (Sample.issue (Sample.status "Code Review") nil 0))
    IssueStatusQEReview = Val false /\
  (exists a, IsActive (Some (Sample.issue (Sample.status "Code Review") nil 0))
             = Val a).
Proof.
  destruct (IsActive_agrees_with_InStatus
              (Sample.issue (Sample.status "Code Review") nil 0))
    as (Hor & Hdone & Hone).
  destruct (Hdone eq_refl) as [Hd Ho].
  split; [exact Hd|]. split; [exact Ho|]. split.
  - apply (Hone IssueStatusCodeReview IssueStatusQEReview);
      [discriminate|reflexivity].
  - destruct Hor as (a & _ & _ & _ & _ & Ha & _); [discriminate|].
    now exists a.
Defined.

(** ** More on the error translation *)

(** X5. [jiraReturnError] never hides an error: when it returns, its result
    is [nil] exactly when the error it was given is [nil]; the result is the
    error it was given or [ErrorAuthentication]; and translating the result
    once more with the same response changes nothing. *)
Theorem jiraReturnError_keeps_failure (ret : ptr jira.Response) (err res : error) :
  jiraReturnError ret err = Val res ->
  (res = None <-> err = None) /\
  (res = err \/ res = Some ErrorAuthentication) /\
  jiraReturnError ret res = Val res.
Proof.
  destruct err as [e|].
  - destruct ret as [r|]; [|discriminate].
    unfold jiraReturnError; simpl.
    destruct ((_ =? _) || (_ =? _)) eqn:Hcode;
      intros H; injection H as <-; rewrite ?Hcode;
      (split; [split; discriminate|]); split; auto.
  - intros H. injection H as <-. split; [tauto|]. split; [now left|reflexivity].
Qed.

Lemma jiraReturnError_keeps_failure_witness :
  jiraReturnError (Sample.response 403) (Some ErrorAuthentication)
    = Val (Some ErrorAuthentication) /\
  (Some ErrorAuthentication : error) <> None.
Proof.
  destruct (jiraReturnError_keeps_failure (Sample.response 403)
              (Some Sample.timeout) (Some ErrorAuthentication) eq_refl)
    as (Hnil & _ & Hagain).
  split; [exact Hagain|].
  intros H. apply Hnil in H. discriminate H.
Defined.

(** ** More on collections *)

Lemma filter_filter_andb {A} (f g : A -> bool) (l : list A) :
  List.filter g (List.filter f l) = List.filter (fun x => f x && g x) l.
Proof.
  induction l as [|x l IH]; simpl; [reflexivity|].
  destruct (f x); simpl; [|exact IH].
  destruct (g x); now rewrite IH.
Qed.

Lemma filter_ext_bool {A} (f g : A -> bool) (l : list A) :
  (forall x, f x = g x) -> List.filter f l = List.filter g l.
Proof.
  intros Hfg. induction l as [|x l IH]; simpl; [reflexivity|].
  now rewrite Hfg, IH.
Qed.



Lemma filter_map_Some {A} (f : ptr A -> bool) (l : list A) :
  List.filter f (map Some l) = map Some (List.filter (fun x => f (Some x)) l).
Proof.
  induction l as [|x l IH]; simpl; [reflexivity|].
  destruct (f (Some x)); simpl; now rewrite IH.
Qed.

Lemma total_points_partition (N : Z) (f : Issue -> bool) (l : list Issue) :
  total_points N l =
  total_points N (List.filter f l)
  + total_points N (List.filter (fun i => negb (f i)) l).
Proof.
  induction l as [|i l IH]; [reflexivity|].
  cbn [List.filter]. destruct (f i); cbn [negb];
    rewrite !total_points_cons, IH; lia.
Qed.

Lemma total_points_counted (N : Z) (l : list Issue) :
  total_points N
    (List.filter (fun i => holds (HasStoryPoints N (Some i))) l)
  = total_points N l.
Proof.
  induction l as [|i l IH]; [reflexivity|].
  cbn [List.filter]. rewrite HasStoryPoints_value. cbn [holds].
  destruct (StoryPoints i >? N) eqn:Hgt.
  - rewrite !total_points_cons, IH. reflexivity.
  - rewrite total_points_cons, Hgt, IH. lia.
Qed.

Lemma int_add_wrap (a b : Z) :
  int_add (int_wrap a) (int_wrap b) = int_wrap (a + b).
Proof.
  unfold int_add. rewrite int_wrap_add_l.
  rewrite (Z.add_comm a), int_wrap_add_l. f_equal. lia.
Qed.

(** X6. [NewIssueCollection(size)] panics when the size is negative or
    larger than [make] accepts.  Whenever it returns, the size is in between,
    the collection has that length, its slots are all [nil], its storage did
    not exist before, and every existing array is as it was. *)
Theorem NewIssueCollection_slots (size : Z) (h : gmap nat (list (ptr Issue))) :
  (size < 0 \/ max_make_len < size ->
   NewIssueCollection size h = Panic LenOutOfRange) /\
  (forall (c : IssueCollection) (h' : gmap nat (list (ptr Issue))),
     NewIssueCollection size h = Val (c, h') ->
     0 <= size <= max_make_len /\
     Slice.valid h' c /\
     Collection.Len c = size /\
     Slice.elems h' c = replicate (Z.to_nat size) nil /\
     h !! s_array c = None /\
     (forall a arr, h !! a = Some arr -> h' !! a = Some arr)).
Proof.
  unfold NewIssueCollection. split.
  - intros Hout.
    destruct (Z.ltb_spec size 0); [reflexivity|].
    destruct (Z.ltb_spec max_make_len size); [reflexivity|lia].
  - intros c h'.
    destruct (Z.ltb_spec size 0); [discriminate|].
    destruct (Z.ltb_spec max_make_len size); [discriminate|].
    cbn [orb]. intros Hrun. injection Hrun as <- <-.
    destruct (make_spec (@nil Issue) (Z.to_nat size) h)
      as (Hv & He & Hl & Hnew & Hsub).
    split; [lia|]. split; [exact Hv|].
    split; [|split; [exact He|split; [exact Hnew|]]].
    + unfold Collection.Len. cbn [s_len Slice.make fst]. lia.
    + intros a arr Ha. exact (lookup_weaken _ _ _ _ Ha Hsub).
Qed.

Lemma NewIssueCollection_slots_witness :
  NewIssueCollection (-1) Sample.heap_3052 = Panic LenOutOfRange /\
  NewIssueCollection (2 ^ 62) Sample.heap_3052 = Panic LenOutOfRange /\
  (exists (c : IssueCollection) (h' : gmap nat (list (ptr Issue))),
     NewIssueCollection 2 Sample.heap_3052 = Val (c, h') /\
     Collection.Len c = 2 /\
     Slice.elems h' c = [nil; nil] /\
     h' !! 7%nat = Some Sample.points_3052).
Proof.
  split; [|split].
  - apply (proj1 (NewIssueCollection_slots (-1) Sample.heap_3052)).
    left. lia.
  - apply (proj1 (NewIssueCollection_slots (2 ^ 62) Sample.heap_3052)).
    right. unfold max_make_len. lia.
  - eexists _, _. split; [reflexivity|].
    destruct (proj2 (NewIssueCollection_slots 2 Sample.heap_3052) _ _ eq_refl)
      as (_ & _ & Hlen & He & _ & Hkeep).
    split; [exact Hlen|]. split; [exact He|].
    apply Hkeep. reflexivity.
Defined.



(** ** Filtering with a predicate that can panic *)

Section PanickingFacts.

Local Open Scope nat_scope.

Variable grow : nat -> nat.
Variable fn : ptr Issue -> go bool.

Implicit Types (h : gmap nat (list (ptr Issue))) (c r : IssueCollection).

(** While [fn] returns what [p] answers on the elements of [c], the two
    loops run alike. *)
Lemma Panicking_range_agrees (p : ptr Issue -> bool) h0 c n :
  Slice.valid h0 c ->
  (forall x, In x (Slice.elems h0 c) -> fn x = Val (p x)) ->
  forall idx r h,
    idx + n = s_len c ->
    h0 ⊆ h -> h0 !! s_array r = None -> Slice.valid h r ->
    Panicking.FilterByFunction_range grow fn c idx n r h
    = Collection.FilterByFunction_range grow p c idx n r h.
Proof.
  intros Hc Hfn. induction n as [|n IH]; intros idx r h Hn Hsub Hnew Hr.
  - reflexivity.
  - destruct (index_elems h0 c idx Hc) as (i & Hi & Hlook); [lia|].
    cbn [Panicking.FilterByFunction_range Collection.FilterByFunction_range].
    rewrite (index_weaken h0 h c idx Hsub Hc) by lia. rewrite Hi.
    cbn [mbind go_bind].
    rewrite (Hfn i) by (apply list_elem_of_In; eapply list_elem_of_lookup_2; eassumption).
    cbn [mbind go_bind].
    destruct (p i).
    + destruct (append_spec nil grow h r i Hr) as (r1 & h1 & Happ & Hr1 & _ & Hkeep).
      rewrite Happ. cbn [mbind go_bind fst snd].
      destruct (Hkeep h0 Hsub Hnew) as [Hsub1 Hnew1].
      apply IH; [lia|assumption..].
    + cbn [mbind go_bind fst snd]. apply IH; [lia|assumption..].
Qed.


(** When [fn] panics on some element and every panic of [fn] is [e], the
    loop ends with [e]. *)
Lemma Panicking_range_some_panic h0 c (e : panic) n :
  Slice.valid h0 c ->
  (forall y e', fn y = Panic e' -> e' = e) ->
  forall idx r h,
    idx + n = s_len c ->
    (exists x, In x (drop idx (Slice.elems h0 c)) /\ fn x = Panic e) ->
    h0 ⊆ h -> h0 !! s_array r = None -> Slice.valid h r ->
    Panicking.FilterByFunction_range grow fn c idx n r h = Panic e.
Proof.
  intros Hc Hone. induction n as [|n IH]; intros idx r h Hn (x & Hin & Hx) Hsub Hnew Hr.
  - rewrite drop_ge in Hin by (rewrite elems_length by assumption; lia).
    destruct Hin.
  - destruct (index_elems h0 c idx Hc) as (i & Hi & Hlook); [lia|].
    rewrite (drop_S _ _ _ Hlook) in Hin.
    cbn [Panicking.FilterByFunction_range].
    rewrite (index_weaken h0 h c idx Hsub Hc) by lia. rewrite Hi.
    cbn [mbind go_bind].
    destruct (fn i) as [b|e'] eqn:Hfi.
    + cbn [mbind go_bind].
      assert (exists x, In x (drop (S idx) (Slice.elems h0 c)) /\ fn x = Panic e)
        as Hrest.
      { exists x. split; [|assumption].
        destruct Hin as [->|Hin]; [congruence|assumption]. }
      destruct b.
      * destruct (append_spec nil grow h r i Hr) as (r1 & h1 & Happ & Hr1 & _ & Hkeep).
        rewrite Happ. cbn [mbind go_bind fst snd].
        destruct (Hkeep h0 Hsub Hnew) as [Hsub1 Hnew1].
        apply IH; [lia|assumption..].
      * cbn [mbind go_bind fst snd]. apply IH; [lia|assumption..].
    + cbn [mbind go_bind]. f_equal. now apply (Hone i).
Qed.

Lemma Panicking_unfold h c :
  Panicking.FilterByFunction grow c fn h
  = Panicking.FilterByFunction_range grow fn c 0 (s_len c)
      (Slice.make nil 0 h).1 (Slice.make nil 0 h).2.
Proof. reflexivity. Qed.

Lemma Panicking_agrees (p : ptr Issue -> bool) h c :
  Slice.valid h c ->
  (forall x, In x (Slice.elems h c) -> fn x = Val (p x)) ->
  Panicking.FilterByFunction grow c fn h = Collection.FilterByFunction grow c p h.
Proof.
  intros Hc Hfn.
  destruct (make_spec (@nil Issue) 0 h) as (Hr0 & _ & _ & Hnew0 & Hsub0).
  rewrite Panicking_unfold.
  now rewrite (Panicking_range_agrees p h c (s_len c) Hc Hfn 0 _ _
                 eq_refl Hsub0 Hnew0 Hr0).
Qed.


Lemma Panicking_some_panic h c (e : panic) :
  Slice.valid h c ->
  (forall y e', fn y = Panic e' -> e' = e) ->
  (exists x, In x (Slice.elems h c) /\ fn x = Panic e) ->
  Panicking.FilterByFunction grow c fn h = Panic e.
Proof.
  intros Hc Hone Hsome.
  destruct (make_spec (@nil Issue) 0 h) as (Hr0 & _ & _ & Hnew0 & Hsub0).
  rewrite Panicking_unfold.
  apply (Panicking_range_some_panic h c e (s_len c) Hc Hone); try assumption.
  reflexivity.
Qed.

End PanickingFacts.

Lemma returns_holds (m : go bool) : returns m -> m = Val (holds m).
Proof. intros [b ->]. reflexivity. Qed.


Lemma Panicking_returns (grow : nat -> nat) (fn : ptr Issue -> go bool)
    (h : gmap nat (list (ptr Issue))) (c : IssueCollection) :
  Slice.valid h c ->
  (forall x, In x (Slice.elems h c) -> returns (fn x)) ->
  exists (r : IssueCollection) (h' : gmap nat (list (ptr Issue))),
    Panicking.FilterByFunction grow c fn h = Val (r, h') /\
    Slice.valid h' r /\
    Slice.elems h' r = List.filter (fun x => holds (fn x)) (Slice.elems h c) /\
    h ⊆ h' /\ h !! s_array r = None.
Proof.
  intros Hc Hret.
  rewrite (Panicking_agrees grow fn (fun x => holds (fn x)) h c Hc)
    by (intros x Hx; apply returns_holds; now apply Hret).
  now apply FilterByFunction_spec.
Qed.






(** ** The methods of an issue as predicates *)

(** On a pointer that is not [nil], six of the methods return. *)
Lemma methods_return (N : Z) (tp : IssueType) (s : IssueStatus) (name : string) :
  Forall (fun fn : ptr Issue -> go bool => forall i, returns (fn (Some i)))
    [fun i => IsType i tp; fun i => InStatus i s; IsResolved; IsPrioritized;
     HasStoryPoints N; fun i => HasComponent i name].
Proof.
  repeat constructor; intros i.
  - rewrite IsType_value. apply returns_Val.
  - rewrite InStatus_value. apply returns_Val.
  - rewrite IsResolved_value. apply returns_Val.
  - rewrite IsPrioritized_value. apply returns_Val.
  - rewrite HasStoryPoints_value. apply returns_Val.
  - unfold HasComponent; simpl.
    destruct (jira.Components (Fields i)); apply returns_Val.
Qed.

(** The seven methods panic on a [nil] receiver, and their only panic is
    the [nil] dereference. *)
Lemma methods_panic_nil (N : Z) (tp : IssueType) (s : IssueStatus) (name : string) :
  Forall (fun fn : ptr Issue -> go bool =>
            fn nil = Panic NilDereference /\
            forall y e, fn y = Panic e -> e = NilDereference)
    [IsActive; fun i => IsType i tp; fun i => InStatus i s; IsResolved;
     IsPrioritized; HasStoryPoints N; fun i => HasComponent i name].
Proof.
  constructor.
  { split; [reflexivity|].
    intros [i|] e He; [|now injection He as <-].
    destruct (jira.Status_ (Fields i)) as [st|] eqn:Hst.
    - destruct (IsActive_present i st Hst) as (b & Hb & _). congruence.
    - rewrite (IsActive_absent i Hst) in He. now injection He as <-. }
  repeat constructor; intros [i|] e He; try (now injection He as <-); exfalso.
  - rewrite IsType_value in He. discriminate He.
  - rewrite InStatus_value in He. discriminate He.
  - rewrite IsResolved_value in He. discriminate He.
  - rewrite IsPrioritized_value in He. discriminate He.
  - rewrite HasStoryPoints_value in He. discriminate He.
  - unfold HasComponent in He; simpl in He.
    destruct (jira.Components (Fields i)); discriminate He.
Qed.

Lemma Panicking_populated (grow : nat -> nat) (fn : ptr Issue -> go bool)
    (h : gmap nat (list (ptr Issue))) (c : IssueCollection) (l : list Issue) :
  Slice.valid h c -> Slice.elems h c = map Some l ->
  (forall i, In i l -> returns (fn (Some i))) ->
  exists (r : IssueCollection) (h' : gmap nat (list (ptr Issue))),
    Panicking.FilterByFunction grow c fn h = Val (r, h') /\
    Slice.valid h' r /\
    Slice.elems h' r
      = map Some (List.filter (fun i => holds (fn (Some i))) l) /\
    h ⊆ h'.
Proof.
  intros Hc Hl Hret.
  destruct (Panicking_returns grow fn h c Hc) as (r & h' & Hrun & Hr & He & Hsub & _).
  { rewrite Hl. intros x Hx. apply in_map_iff in Hx as (i & <- & Hi).
    now apply Hret. }
  exists r, h'. split; [exact Hrun|]. split; [exact Hr|]. split; [|exact Hsub].
  rewrite He, Hl. apply (filter_map_Some (fun x => holds (fn x))).
Qed.

(** X10. The methods of an issue as predicates of [FilterByFunction], on a
    collection whose slots are all populated.  With [IsType], [InStatus],
    [IsResolved], [IsPrioritized], [HasStoryPoints] or [HasComponent] the
    call returns the issues for which the method is [true], in the order of
    the collection.  With [IsActive] it does so when every issue has a
    status, and panics when one of them has none. *)
Theorem FilterByFunction_by_method (NoStoryPoints : Z) (grow : nat -> nat)
    (h : gmap nat (list (ptr Issue))) (c : IssueCollection) (l : list Issue)
    (tp : IssueType) (s : IssueStatus) (name : string) :
  Slice.valid h c ->
  Slice.elems h c = map Some l ->
  Forall (fun fn : ptr Issue -> go bool =>
            exists (r : IssueCollection) (h' : gmap nat (list (ptr Issue))),
              Panicking.FilterByFunction grow c fn h = Val (r, h') /\
              Slice.elems h' r
                = map Some (List.filter (fun i => holds (fn (Some i))) l))
    [fun i => IsType i tp; fun i => InStatus i s; IsResolved; IsPrioritized;
     HasStoryPoints NoStoryPoints; fun i => HasComponent i name] /\
  ((forall i, In i l -> jira.Status_ (Fields i) <> nil) ->
   exists (r : IssueCollection) (h' : gmap nat (list (ptr Issue))),
     Panicking.FilterByFunction grow c IsActive h = Val (r, h') /\
     Slice.elems h' r
       = map Some (List.filter (fun i => holds (IsActive (Some i))) l)) /\
  ((exists i, In i l /\ jira.Status_ (Fields i) = nil) ->
   Panicking.FilterByFunction grow c IsActive h = Panic NilDereference).
Proof.
  intros Hc Hl. split; [|split].
  - eapply List.Forall_impl; [|apply (methods_return NoStoryPoints tp s name)].
    intros fn Hret.
    destruct (Panicking_populated grow fn h c l Hc Hl)
      as (r & h' & Hrun & _ & He & _); [intros i _; apply Hret|].
    now exists r, h'.
  - intros Hst.
    destruct (Panicking_populated grow IsActive h c l Hc Hl)
      as (r & h' & Hrun & _ & He & _).
    { intros i Hi. destruct (jira.Status_ (Fields i)) as [st|] eqn:Hi'.
      - destruct (IsActive_present i st Hi') as (b & Hb & _). now exists b.
      - now contradiction (Hst i Hi). }
    now exists r, h'.
  - intros (i & Hi & Hst).
    pose proof (methods_panic_nil NoStoryPoints tp s name) as Hnil.
    apply Forall_inv in Hnil. destruct Hnil as [_ Hnil].
    apply (Panicking_some_panic grow IsActive h c NilDereference Hc Hnil).
    exists (Some i). split; [rewrite Hl; now apply in_map|].
    now apply IsActive_absent.
Qed.

Lemma FilterByFunction_by_method_witness :
  (exists (r : IssueCollection) (h' : gmap nat (list (ptr Issue))),
     Panicking.FilterByFunction Sample.double Sample.board_all
       (fun i => InStatus i IssueStatusDone) Sample.board_heap = Val (r, h') /\
     Slice.elems h' r = [Some (Sample.issue (Sample.status "Done") nil 8)]) /\
  (exists (r : IssueCollection) (h' : gmap nat (list (ptr Issue))),
     Panicking.FilterByFunction Sample.double Sample.board
       IsActive Sample.board_heap = Val (r, h') /\
     Slice.elems h' r =
       [Some (Sample.issue (Sample.status "In Progress") nil 3);
        Some (Sample.issue (Sample.status "Code Review") nil 5)]) /\
  Panicking.FilterByFunction Sample.double Sample.board_all
    IsActive Sample.board_heap = Panic NilDereference.
Proof.
  assert (Slice.valid Sample.board_heap Sample.board) as Hc
    by (split; vm_compute; lia).
  assert (Slice.valid Sample.board_heap Sample.board_all) as Hall
    by (split; vm_compute; lia).
  pose proof (FilterByFunction_by_method 0 Sample.double Sample.board_heap
                Sample.board_all
                [Sample.issue (Sample.status "In Progress") nil 3;
                 Sample.issue (Sample.status "Done") nil 8;
                 Sample.issue (Sample.status "Code Review") nil 5;
                 Sample.bare]
                IssueTypeStory IssueStatusDone "backend" Hall eq_refl)
    as (Hsix & _ & Hpanic).
  pose proof (FilterByFunction_by_method 0 Sample.double Sample.board_heap
                Sample.board
                [Sample.issue (Sample.status "In Progress") nil 3;
                 Sample.issue (Sample.status "Done") nil 8;
                 Sample.issue (Sample.status "Code Review") nil 5]
                IssueTypeStory IssueStatusDone "backend" Hc eq_refl)
    as (_ & Hactive & _).
  split; [|split].
  - apply Forall_inv_tail, Forall_inv in Hsix.
    destruct Hsix as (r & h' & Hrun & He). exists r, h'.
    split; [exact Hrun|]. rewrite He. reflexivity.
  - destruct Hactive as (r & h' & Hrun & He).
    { intros i [<-|[<-|[<-|[]]]]; discriminate. }
    exists r, h'. split; [exact Hrun|]. rewrite He. reflexivity.
  - apply Hpanic. exists Sample.bare. split; [|reflexivity].
    right; right; right; left; reflexivity.
Defined.

(** X11. On a collection with a slot that is [nil], [FilterByFunction] with
    any of the seven methods of an issue as its predicate panics with a
    [nil] dereference: a collection that comes from [NewIssueCollection(n)]
    has to be populated before it is filtered. *)
Theorem FilterByFunction_unpopulated_panics (NoStoryPoints : Z)
    (grow : nat -> nat) (h : gmap nat (list (ptr Issue))) (c : IssueCollection)
    (tp : IssueType) (s : IssueStatus) (name : string) :
  Slice.valid h c ->
  In nil (Slice.elems h c) ->
  Forall (fun fn : ptr Issue -> go bool =>
            Panicking.FilterByFunction grow c fn h = Panic NilDereference)
    [IsActive; fun i => IsType i tp; fun i => InStatus i s; IsResolved;
     IsPrioritized; HasStoryPoints NoStoryPoints; fun i => HasComponent i name].
Proof.
  intros Hc Hin.
  eapply List.Forall_impl; [|apply (methods_panic_nil NoStoryPoints tp s name)].
  intros fn [Hrecv Hnil].
  apply (Panicking_some_panic grow fn h c NilDereference Hc Hnil).
  exists nil. split; [exact Hin|exact Hrecv].
Qed.

Lemma FilterByFunction_unpopulated_panics_witness :
  Panicking.FilterByFunction Sample.double Sample.unpopulated
    (fun i => InStatus i IssueStatusDone) Sample.unpopulated_heap
  = Panic NilDereference.
Proof.
  assert (Slice.valid Sample.unpopulated_heap Sample.unpopulated) as Hc
    by (split; vm_compute; lia).
  pose proof (FilterByFunction_unpopulated_panics 0 Sample.double
                Sample.unpopulated_heap Sample.unpopulated
                IssueTypeStory IssueStatusDone "backend" Hc
                (or_introl eq_refl)) as Hseven.
  apply Forall_inv_tail, Forall_inv_tail, Forall_inv in Hseven.
  exact Hseven.
Defined.

(** ** Story points of filtered collections *)

Lemma total_points_bounds (N : Z) (l : list Issue) :
  -1 <= N ->
  0 <= total_points N l /\
  forall i, In i l -> StoryPoints i > N -> StoryPoints i <= total_points N l.
Proof.
  intros HN. induction l as [|j l [IH0 IH]].
  - split; [unfold total_points; simpl; lia|intros i []].
  - rewrite total_points_cons.
    destruct (Z.gtb_spec (StoryPoints j) N) as [Hj|Hj]; split; try lia.
    + intros i [<-|Hi] Hgt; [lia|]. specialize (IH i Hi Hgt). lia.
    + intros i [<-|Hi] Hgt; [lia|]. specialize (IH i Hi Hgt). lia.
Qed.

(** X13. Dropping the issues without story points does not change the
    total: on a collection whose slots are all populated,
    [FilterByFunction] with [HasStoryPoints] as its predicate returns a
    collection with the story points of [c], and [HasStoryPoints()] is
    [true] for each of its elements. *)
Theorem StoryPoints_of_estimated_issues (NoStoryPoints : Z) (grow : nat -> nat)
    (h : gmap nat (list (ptr Issue))) (c : IssueCollection) (l : list Issue) :
  Slice.valid h c ->
  Slice.elems h c = map Some l ->
  exists (r : IssueCollection) (h' : gmap nat (list (ptr Issue))),
    Panicking.FilterByFunction grow c (HasStoryPoints NoStoryPoints) h
      = Val (r, h') /\
    Collection.StoryPoints NoStoryPoints r h'
      = Collection.StoryPoints NoStoryPoints c h /\
    (forall x, In x (Slice.elems h' r) ->
       HasStoryPoints NoStoryPoints x = Val true).
Proof.
  intros Hc Hl.
  destruct (Panicking_populated grow (HasStoryPoints NoStoryPoints) h c l Hc Hl)
    as (r & h' & Hrun & Hr & He & _).
  { intros i _. rewrite HasStoryPoints_value. apply returns_Val. }
  exists r, h'. split; [exact Hrun|]. split.
  - rewrite (StoryPoints_populated NoStoryPoints h' r _ Hr He).
    rewrite (StoryPoints_populated NoStoryPoints h c l Hc Hl).
    now rewrite total_points_counted.
  - intros x Hx. rewrite He in Hx.
    apply in_map_iff in Hx as (i & <- & Hi).
    apply filter_In in Hi as [_ Hi].
    rewrite HasStoryPoints_value in *. simpl in Hi. now rewrite Hi.
Qed.

Lemma StoryPoints_of_estimated_issues_witness :
  exists (r : IssueCollection) (h' : gmap nat (list (ptr Issue))),
    Panicking.FilterByFunction Sample.double Sample.coll_3052
      (HasStoryPoints 0) Sample.heap_3052 = Val (r, h') /\
    Collection.StoryPoints 0 r h' = Val 10.
Proof.
  assert (Slice.valid Sample.heap_3052 Sample.coll_3052) as Hc
    by (split; vm_compute; lia).
  destruct (StoryPoints_of_estimated_issues 0 Sample.double Sample.heap_3052
              Sample.coll_3052
              [Sample.issue nil nil 3; Sample.issue nil nil 0;
               Sample.issue nil nil 5; Sample.issue nil nil 2]
              Hc eq_refl)
    as (r & h' & Hrun & Hsame & _).
  exists r, h'. split; [exact Hrun|]. rewrite Hsame. reflexivity.
Defined.

(** X14. A predicate that rejects the [nil] pointer filters the slots that
    are not populated away: the collection that [FilterByFunction] returns
    has no [nil] element, and [StoryPoints()] returns on it, also when it
    panics on [c]. *)
Theorem FilterByFunction_drops_nil_slots (NoStoryPoints : Z) (grow : nat -> nat)
    (h : gmap nat (list (ptr Issue))) (c : IssueCollection)
    (p : ptr Issue -> bool) :
  Slice.valid h c ->
  p nil = false ->
  exists (r : IssueCollection) (h' : gmap nat (list (ptr Issue))),
    Collection.FilterByFunction grow c p h = Val (r, h') /\
    ~ In nil (Slice.elems h' r) /\
    returns (Collection.StoryPoints NoStoryPoints r h').
Proof.
  intros Hc Hp.
  destruct (FilterByFunction_spec grow p h c Hc)
    as (r & h' & Hrun & Hr & He & _ & _).
  assert (~ In nil (Slice.elems h' r)) as Hnonil.
  { rewrite He. intros Hin. apply filter_In in Hin as [_ Hin]. congruence. }
  exists r, h'. split; [exact Hrun|]. split; [exact Hnonil|].
  destruct (populated_or_nil (Slice.elems h' r)) as [Hin|(l & Hl)];
    [contradiction|].
  rewrite (StoryPoints_populated NoStoryPoints h' r l Hr Hl).
  apply returns_Val.
Qed.

Lemma FilterByFunction_drops_nil_slots_witness :
  Collection.StoryPoints 0 Sample.unpopulated Sample.unpopulated_heap
    = Panic NilDereference /\
  exists (r : IssueCollection) (h' : gmap nat (list (ptr Issue))),
    Collection.FilterByFunction Sample.double Sample.unpopulated
      Sample.more_than_two Sample.unpopulated_heap = Val (r, h') /\
    returns (Collection.StoryPoints 0 r h').
Proof.
  split; [reflexivity|].
  assert (Slice.valid Sample.unpopulated_heap Sample.unpopulated) as Hc
    by (split; vm_compute; lia).
  destruct (FilterByFunction_drops_nil_slots 0 Sample.double
              Sample.unpopulated_heap Sample.unpopulated
              Sample.more_than_two Hc eq_refl)
    as (r & h' & Hrun & _ & Hret).
  exists r, h'. split; [exact Hrun|exact Hret].
Defined.

(** X15. With a sentinel that is not below -1, on a collection whose slots
    are all populated and whose exact total fits in an [int], the story
    points of the collection are not negative and are not less than the
    story points of any of its issues that has story points. *)
Theorem StoryPoints_bounds (NoStoryPoints : Z)
    (h : gmap nat (list (ptr Issue))) (c : IssueCollection) (l : list Issue) :
  -1 <= NoStoryPoints ->
  Slice.valid h c ->
  Slice.elems h c = map Some l ->
  in_int (total_points NoStoryPoints l) ->
  exists v : Z,
    Collection.StoryPoints NoStoryPoints c h = Val v /\
    0 <= v /\
    (forall i, In i l ->
       HasStoryPoints NoStoryPoints (Some i) = Val true -> StoryPoints i <= v).
Proof.
  intros HN Hc Hl Hfits.
  destruct (total_points_bounds NoStoryPoints l HN) as [H0 Hmax].
  exists (total_points NoStoryPoints l).
  rewrite (StoryPoints_populated NoStoryPoints h c l Hc Hl), int_wrap_id
    by assumption.
  split; [reflexivity|]. split; [exact H0|].
  intros i Hi Hhas. apply Hmax; [exact Hi|].
  rewrite HasStoryPoints_value in Hhas. injection Hhas as Hhas.
  rewrite Z.gtb_ltb in Hhas. apply Z.ltb_lt in Hhas. lia.
Qed.

Lemma StoryPoints_bounds_witness :
  exists v : Z,
    Collection.StoryPoints 0 Sample.coll_3052 Sample.heap_3052 = Val v /\
    0 <= v /\ 5 <= v.
Proof.
  assert (Slice.valid Sample.heap_3052 Sample.coll_3052) as Hc
    by (split; vm_compute; lia).
  destruct (StoryPoints_bounds 0 Sample.heap_3052 Sample.coll_3052
              [Sample.issue nil nil 3; Sample.issue nil nil 0;
               Sample.issue nil nil 5; Sample.issue nil nil 2])
    as (v & Hv & H0 & Hmax);
    [lia|exact Hc|reflexivity|vm_compute; split; discriminate|].
  exists v. split; [exact Hv|]. split; [exact H0|].
  apply (Hmax (Sample.issue nil nil 5)); [|reflexivity].
  right; right; left; reflexivity.
Defined.

(** ** Filters in sequence *)

(** X8. Filtering the result of a filter, for predicates [p] and [q] whose
    answer depends on the element only.  When [p] returns on every element
    of [c] and [q] returns on every element on which [p] is [true], then
    with [r1] the result of [c.FilterByFunction(p)], [r1.FilterByFunction(q)]
    returns the elements of [c] on which both are [true], in the order of
    [c], and leaves [c] and [r1] as they were; filtering by [p] a second
    time changes nothing.  When [q] returns on every element of [c] as well,
    applying [q] first and [p] second returns the same elements. *)
Theorem FilterByFunction_twice (grow : nat -> nat)
    (h : gmap nat (list (ptr Issue))) (c : IssueCollection)
    (p q : ptr Issue -> go bool) :
  Slice.valid h c ->
  (forall x, In x (Slice.elems h c) -> returns (p x)) ->
  (forall x, In x (Slice.elems h c) -> holds (p x) = true -> returns (q x)) ->
  exists (r1 r2 : IssueCollection) (h1 h2 : gmap nat (list (ptr Issue))),
    Panicking.FilterByFunction grow c p h = Val (r1, h1) /\
    Panicking.FilterByFunction grow r1 q h1 = Val (r2, h2) /\
    Slice.elems h2 r2
      = List.filter (fun x => holds (p x) && holds (q x)) (Slice.elems h c) /\
    Slice.elems h2 r1 = Slice.elems h1 r1 /\
    Slice.elems h2 c = Slice.elems h c /\
    ((forall x, q x = p x) -> Slice.elems h2 r2 = Slice.elems h1 r1) /\
    ((forall x, In x (Slice.elems h c) -> returns (q x)) ->
     exists (r1' r2' : IssueCollection) (h1' h2' : gmap nat (list (ptr Issue))),
       Panicking.FilterByFunction grow c q h = Val (r1', h1') /\
       Panicking.FilterByFunction grow r1' p h1' = Val (r2', h2') /\
       Slice.elems h2' r2' = Slice.elems h2 r2).
Proof.
  intros Hc Hp Hq.
  destruct (Panicking_returns grow p h c Hc Hp)
    as (r1 & h1 & Hrun1 & Hr1 & He1 & Hsub1 & _).
  destruct (Panicking_returns grow q h1 r1 Hr1)
    as (r2 & h2 & Hrun2 & Hr2 & He2 & Hsub2 & _).
  { intros x Hx. rewrite He1 in Hx. apply filter_In in Hx as [Hx Hpx].
    now apply Hq. }
  assert (Slice.elems h2 r2
          = List.filter (fun x => holds (p x) && holds (q x)) (Slice.elems h c))
    as Hboth by (now rewrite He2, He1, filter_filter_andb).
  exists r1, r2, h1, h2.
  split; [exact Hrun1|]. split; [exact Hrun2|]. split; [exact Hboth|].
  split; [apply (valid_weaken h1 h2 r1 Hsub2 Hr1)|].
  split; [|split].
  - destruct (valid_weaken h h1 c Hsub1 Hc) as [Hc1 Hsame1].
    destruct (valid_weaken h1 h2 c Hsub2 Hc1) as [_ Hsame2].
    congruence.
  - intros Hqp. rewrite Hboth, He1. apply filter_ext_bool.
    intros x. rewrite Hqp. now destruct (holds (p x)).
  - intros Hq'.
    destruct (Panicking_returns grow q h c Hc Hq')
      as (r1' & h1' & Hrun1' & Hr1' & He1' & _ & _).
    destruct (Panicking_returns grow p h1' r1' Hr1')
      as (r2' & h2' & Hrun2' & _ & He2' & _ & _).
    { intros x Hx. rewrite He1' in Hx. apply filter_In in Hx as [Hx _].
      now apply Hp. }
    exists r1', r2', h1', h2'.
    split; [exact Hrun1'|]. split; [exact Hrun2'|].
    rewrite Hboth, He2', He1', filter_filter_andb.
    apply filter_ext_bool. intros x. apply andb_comm.
Qed.

Lemma FilterByFunction_twice_witness :
  exists (r1 r2 : IssueCollection) (h1 h2 : gmap nat (list (ptr Issue))),
    Panicking.FilterByFunction Sample.double Sample.board_all
      (fun i => InStatus i IssueStatusDone) Sample.board_heap = Val (r1, h1) /\
    Panicking.FilterByFunction Sample.double r1 IsActive h1 = Val (r2, h2) /\
    Slice.elems h2 r2 = [] /\
    Slice.elems h2 r1 = [Some (Sample.issue (Sample.status "Done") nil 8)] /\
    Panicking.FilterByFunction Sample.double Sample.board_all IsActive
      Sample.board_heap = Panic NilDereference.
Proof.
  assert (Slice.valid Sample.board_heap Sample.board_all) as Hc
    by (split; vm_compute; lia).
  destruct (FilterByFunction_twice Sample.double Sample.board_heap
              Sample.board_all (fun i => InStatus i IssueStatusDone) IsActive Hc)
    as (r1 & r2 & h1 & h2 & Hrun1 & Hrun2 & Hboth & Hsame1 & _).
  { intros x [<-|[<-|[<-|[<-|[]]]]]; eexists; reflexivity. }
  { intros x [<-|[<-|[<-|[<-|[]]]]] Hx; try discriminate Hx.
    eexists; reflexivity. }
  exists r1, r2, h1, h2.
  split; [exact Hrun1|]. split; [exact Hrun2|].
  split; [rewrite Hboth; reflexivity|].
  split; [|reflexivity].
  rewrite Hsame1.
  destruct (Panicking_returns Sample.double (fun i => InStatus i IssueStatusDone)
              Sample.board_heap Sample.board_all Hc)
    as (r & h' & Hrun & _ & He & _).
  { intros x [<-|[<-|[<-|[<-|[]]]]]; eexists; reflexivity. }
  rewrite Hrun1 in Hrun. injection Hrun as <- <-. rewrite He. reflexivity.
Defined.

Lemma holds_negation (p : ptr Issue -> go bool) (x : ptr Issue) :
  returns (p x) -> holds (negation p x) = negb (holds (p x)).
Proof. intros [b Hb]. unfold negation. now rewrite Hb. Qed.

Lemma negation_returns (p : ptr Issue -> go bool) (x : ptr Issue) :
  returns (p x) -> returns (negation p x).
Proof. intros [b Hb]. unfold negation. rewrite Hb. apply returns_Val. Qed.

(** X12. Splitting a collection whose slots are all populated by a
    predicate and by its negation splits its story points, for a predicate
    whose answer depends on the element only and that returns on every
    element: the story points of the collection are the [int] sum of the
    story points of the two parts, and they are the same after the two
    calls as before them. *)
Theorem StoryPoints_of_partition (NoStoryPoints : Z) (grow : nat -> nat)
    (h : gmap nat (list (ptr Issue))) (c : IssueCollection)
    (p : ptr Issue -> go bool) (l : list Issue) :
  Slice.valid h c ->
  Slice.elems h c = map Some l ->
  (forall i, In i l -> returns (p (Some i))) ->
  exists (r1 r2 : IssueCollection) (h1 h2 : gmap nat (list (ptr Issue)))
         (v1 v2 v : Z),
    Panicking.FilterByFunction grow c p h = Val (r1, h1) /\
    Panicking.FilterByFunction grow c (negation p) h1 = Val (r2, h2) /\
    Collection.StoryPoints NoStoryPoints r1 h2 = Val v1 /\
    Collection.StoryPoints NoStoryPoints r2 h2 = Val v2 /\
    Collection.StoryPoints NoStoryPoints c h = Val v /\
    Collection.StoryPoints NoStoryPoints c h2 = Val v /\
    v = int_add v1 v2.
Proof.
  intros Hc Hl Hp.
  destruct (Panicking_populated grow p h c l Hc Hl Hp)
    as (r1 & h1 & Hrun1 & Hr1 & He1 & Hsub1).
  destruct (valid_weaken h h1 c Hsub1 Hc) as [Hc1 Hsame1].
  rewrite Hl in Hsame1.
  destruct (Panicking_populated grow (negation p) h1 c l Hc1 Hsame1)
    as (r2 & h2 & Hrun2 & Hr2 & He2 & Hsub2).
  { intros i Hi. apply negation_returns. now apply Hp. }
  destruct (valid_weaken h1 h2 c Hsub2 Hc1) as [Hc2 Hsame2].
  destruct (valid_weaken h1 h2 r1 Hsub2 Hr1) as [Hr12 Hsame12].
  rewrite <- Hsame12 in He1. rewrite Hsame1 in Hsame2.
  rewrite (filter_ext_in (fun i => holds (negation p (Some i)))
             (fun i => negb (holds (p (Some i)))) l) in He2
    by (intros i Hi; apply holds_negation; now apply Hp).
  exists r1, r2, h1, h2. do 3 eexists.
  split; [exact Hrun1|]. split; [exact Hrun2|].
  split; [exact (StoryPoints_populated NoStoryPoints h2 r1 _ Hr12 He1)|].
  split; [exact (StoryPoints_populated NoStoryPoints h2 r2 _ Hr2 He2)|].
  rewrite int_add_wrap,
    <- (total_points_partition NoStoryPoints (fun i => holds (p (Some i))) l).
  split; [exact (StoryPoints_populated NoStoryPoints h c l Hc Hl)|].
  split; [exact (StoryPoints_populated NoStoryPoints h2 c l Hc2 Hsame2)|].
  reflexivity.
Qed.

Lemma StoryPoints_of_partition_witness :
  exists (r1 r2 : IssueCollection) (h1 h2 : gmap nat (list (ptr Issue))),
    Panicking.FilterByFunction Sample.double Sample.coll_3052
      (HasStoryPoints 2) Sample.heap_3052 = Val (r1, h1) /\
    Panicking.FilterByFunction Sample.double Sample.coll_3052
      (negation (HasStoryPoints 2)) h1 = Val (r2, h2) /\
    int_add 8 2 = 10 /\
    exists v1 v2,
      Collection.StoryPoints 0 r1 h2 = Val v1 /\
      Collection.StoryPoints 0 r2 h2 = Val v2 /\
      Collection.StoryPoints 0 Sample.coll_3052 Sample.heap_3052
        = Val (int_add v1 v2).
Proof.
  assert (Slice.valid Sample.heap_3052 Sample.coll_3052) as Hc
    by (split; vm_compute; lia).
  destruct (StoryPoints_of_partition 0 Sample.double Sample.heap_3052
              Sample.coll_3052 (HasStoryPoints 2)
              [Sample.issue nil nil 3; Sample.issue nil nil 0;
               Sample.issue nil nil 5; Sample.issue nil nil 2]
              Hc eq_refl)
    as (r1 & r2 & h1 & h2 & v1 & v2 & v & Hrun1 & Hrun2 & H1 & H2 & Hv & _ & Hsum).
  { intros i _. rewrite HasStoryPoints_value. apply returns_Val. }
  exists r1, r2, h1, h2.
  split; [exact Hrun1|]. split; [exact Hrun2|]. split; [reflexivity|].
  exists v1, v2. split; [exact H1|]. split; [exact H2|].
  rewrite <- Hsum. exact Hv.
Defined.
